(** * node-tdlib, [bot_api.js]: the correlation core of the Bot facade

    A shallow embedding of the parts of [class Bot] that keep the facade's
    bookkeeping: the username cache ([_checkChatId]), the set of initialised
    chats ([_initChatIfNeeded]), the one-shot waits on [_sendMsg:...] events
    ([_waitMessageTillSent] and the two handlers installed by the
    constructor), the callback payload cipher ([_parseReplyMarkup],
    [_processIncomingCallbackQuery]) and the facade methods
    [setChatDescription], [answerCallbackQuery] and [deleteMessage].

    Conventions.  JavaScript numbers that hold identifiers and timestamps are
    integers and are modelled by [Z]; text is modelled by [string], that is by
    its UTF-8 bytes, so that [Buffer.from(s, 'utf8')] and
    [buf.toString('utf8')] are the two conversions between [string] and
    [list byte]; a [Map] is a [gmap], a [Set] is a [gset]. *)

From Stdlib Require Import ZArith NArith Lia Bool Ascii String.
From Stdlib.Strings Require Import Byte.
From stdpp Require Import base option list gmap strings pretty.

Local Open Scope Z_scope.

(** ** Bytes and buffers *)

Module Buffer.

Definition t := list byte.

(** [Buffer.from(s, 'utf8')] and [buf.toString('utf8')].  A text is its
    well-formed UTF-8 octets, and on these the two are inverse to each other;
    on octets that are no text [toString] puts U+FFFD where the octets are
    ill-formed, which [to_utf8] does not show: what it returns is read only
    where the octets are those of a text. *)
Definition from_utf8 (s : string) : t := list_byte_of_string s.
Definition to_utf8 (b : t) : string := string_of_list_byte b.

Definition byte_of_N (n : N) : byte :=
  match Byte.of_N n with Some b => b | None => x00 end.

Definition bits : Type :=
  bool * (bool * (bool * (bool * (bool * (bool * (bool * bool)))))).

Definition xor_bits (a b : bits) : bits :=
  let '(a0, (a1, (a2, (a3, (a4, (a5, (a6, a7))))))) := a in
  let '(b0, (b1, (b2, (b3, (b4, (b5, (b6, b7))))))) := b in
  (xorb a0 b0, (xorb a1 b1, (xorb a2 b2, (xorb a3 b3,
    (xorb a4 b4, (xorb a5 b5, (xorb a6 b6, xorb a7 b7))))))).

(** The [^] of two octets. *)
Definition byte_xor (a b : byte) : byte :=
  Byte.of_bits (xor_bits (Byte.to_bits a) (Byte.to_bits b)).

(** *** [toString('base64')] *)

Definition alphabet : list ascii :=
  list_ascii_of_string
    "ABCDEFGHIJKLMNOPQRSTUVWXYZabcdefghijklmnopqrstuvwxyz0123456789+/".

Definition digit_char (n : N) : ascii :=
  nth (N.to_nat n) alphabet "="%char.

(** The six-bit groups of a byte sequence; the last group of an incomplete
    triple is padded with zero bits. *)
Fixpoint sextets (bs : list byte) : list N :=
  match bs with
  | [] => []
  | [a] =>
      let a := Byte.to_N a in
      [a / 4; (a mod 4) * 16]%N
  | [a; b] =>
      let a := Byte.to_N a in
      let b := Byte.to_N b in
      [a / 4; (a mod 4) * 16 + b / 16; (b mod 16) * 4]%N
  | a :: b :: c :: rest =>
      let a := Byte.to_N a in
      let b := Byte.to_N b in
      let c := Byte.to_N c in
      (a / 4 :: (a mod 4) * 16 + b / 16 :: (b mod 16) * 4 + c / 64
         :: c mod 64 :: sextets rest)%N
  end.

Definition padding (len : nat) : list ascii :=
  match (len mod 3)%nat with
  | 1%nat => ["="; "="]%char
  | 2%nat => ["="]%char
  | _ => []
  end.

Definition to_base64 (bs : t) : string :=
  string_of_list_ascii (map digit_char (sextets bs) ++ padding (length bs)).

(** *** [Buffer.from(s, 'base64')]

    The decoder reads the characters up to the first [=], where it stops; of
    these the digits are taken in their order, the URL-safe [-] and [_]
    among them, and a character that is no digit, such as a blank or a line
    break, is passed over.  A last group of two or three digits gives one or
    two octets, a last single digit none.  The characters of a token are
    ASCII. *)

Fixpoint index_of (c : ascii) (cs : list ascii) (i : N) : option N :=
  match cs with
  | [] => None
  | d :: cs' => if Ascii.eqb c d then Some i else index_of c cs' (N.succ i)
  end.

Definition digit_value (c : ascii) : option N :=
  if Ascii.eqb c "-" then Some 62%N
  else if Ascii.eqb c "_" then Some 63%N
  else index_of c alphabet 0%N.

Fixpoint octets (ss : list N) : list byte :=
  match ss with
  | s1 :: s2 :: s3 :: s4 :: rest =>
      byte_of_N (s1 * 4 + s2 / 16)
        :: byte_of_N ((s2 mod 16) * 16 + s3 / 4)
        :: byte_of_N ((s3 mod 4) * 64 + s4) :: octets rest
  | [s1; s2; s3] =>
      [byte_of_N (s1 * 4 + s2 / 16); byte_of_N ((s2 mod 16) * 16 + s3 / 4)]
  | [s1; s2] => [byte_of_N (s1 * 4 + s2 / 16)]
  | _ => []
  end%N.

(** The characters before the first [=]. *)
Fixpoint until_padding (cs : list ascii) : list ascii :=
  match cs with
  | [] => []
  | c :: cs' => if Ascii.eqb c "=" then [] else c :: until_padding cs'
  end.

Definition from_base64 (s : string) : t :=
  octets (omap digit_value (until_padding (list_ascii_of_string s))).

End Buffer.

(** ** The stream cipher of the callback payloads

  [crypto.createCipheriv('aes-256-cfb', key, iv)] is CFB with a feedback of
  one whole block, run octet by octet: the register [ivec] is encrypted
  whenever a block starts, each octet is combined with the register at the
  running index [num], and the ciphertext octet takes its place.  The block
  transform is the platform's (see [Platform]). *)

Module Cfb.

Record state := { ivec : list byte; num : nat }.

Definition start (iv : list byte) : state := {| ivec := iv; num := 0 |}.

Section Mode.
Variable block_encrypt : list byte -> list byte.

Definition refill (st : state) : list byte :=
  if Nat.eqb (num st) 0 then block_encrypt (ivec st) else ivec st.

Definition advance (st : state) (c : byte) : state :=
  {| ivec := <[num st := c]> (refill st); num := (num st + 1) mod 16 |}.

Definition keystream (st : state) : byte :=
  default x00 (refill st !! num st).

Fixpoint encrypt (st : state) (input : list byte) : list byte :=
  match input with
  | [] => []
  | x :: rest =>
      let c := Buffer.byte_xor (keystream st) x in
      c :: encrypt (advance st c) rest
  end.

Fixpoint decrypt (st : state) (input : list byte) : list byte :=
  match input with
  | [] => []
  | c :: rest =>
      Buffer.byte_xor (keystream st) c :: decrypt (advance st c) rest
  end.
End Mode.

End Cfb.

(** ** Objects exchanged with the transport *)

Module Td.

(** A reply that is only inspected for its tag, [code] and [message]. *)
Record object := { at_type : string; code : option Z; message : option string }.

Definition ok : object := {| at_type := "ok"; code := None; message := None |}.

Module Chat.
Record t := { id : Z }.
End Chat.

Module Message.
Record t := { id : Z; chat_id : Z; can_be_deleted_for_all_users : bool }.
End Message.

(** The options object handed to [answerCallbackQuery]. *)
Record callback_answer := {
  callback_query_id : option string;
  text : option string;
  show_alert : option bool;
  url : option string;
  cache_time : option Z
}.

(** The named operations issued through [this.run(name, params)]. *)
Inductive call :=
| getChat (chat_id : Z)
| getSupergroup (supergroup_id : Z)
| createSupergroupChat (supergroup_id : Z) (force : bool)
| getBasicGroup (basic_group_id : Z)
| createBasicGroupChat (basic_group_id : Z) (force : bool)
| getUser (user_id : Z)
| createPrivateChat (user_id : Z) (force : bool)
| searchPublicChat (username : string)
| getMessages (chat_id : Z) (message_ids : list Z)
| deleteMessages (chat_id : Z) (message_ids : list Z) (revoke : bool)
| setSupergroupDescription (supergroup_id : Z) (description : string)
| answerCallbackQuery (options : callback_answer).

(** The shape of the value an operation resolves with.  [searchPublicChat]
    may resolve with nothing; [getMessages] resolves with an object whose
    [messages] array has a [null] for each message that was not found. *)
Definition reply (c : call) : Type :=
  match c with
  | searchPublicChat _ => option Chat.t
  | getMessages _ _ => list (option Message.t)
  | _ => object
  end.

End Td.

(** Values thrown in the facade: [new Error(message)], or an object of the
    transport (a rejection of [run], or a reply thrown by [throw ret]). *)
Inductive exn :=
| JsError (message : string)
| Thrown (o : Td.object).

Definition exn_message (e : exn) : option string :=
  match e with
  | JsError m => Some m
  | Thrown o => Td.message o
  end.

Inductive outcome (A : Type) :=
| Resolved (a : A)
| Rejected (e : exn).
Arguments Resolved {A} a.
Arguments Rejected {A} e.

(** Modelled from the spec: the external collaborators of [class Bot].  The
    transport is [TdClientActor.run] of [./td_client_actor] (an asynchronous
    [invoke(operation_name, parameters) -> outcome]); the message id
    transform is [get_tdlib_message_id] of [./util]; the clock, the random
    source, the key derivation and the block cipher are Node's [Date.now],
    [crypto.randomBytes], [crypto.scryptSync] and AES-256.  [World] is
    whatever those collaborators depend on. *)
Class Platform := {
  World : Type;
  transport : forall c : Td.call, World -> outcome (Td.reply c) * World;
  Date_now : World -> Z * World;
  randomBytes : nat -> World -> list byte * World;
  randomBytes_length : forall n w, length (randomBytes n w).1 = n;
  scryptSync : string -> list byte;
  aes256_encrypt_block : list byte -> list byte -> list byte;
  get_tdlib_message_id : Z -> Z
}.

(** ** The state of a [Bot] *)

(** What a send-wait is settled with: [rs(this._getMessage(update.message))]
    resolves it with the conversion of the sent message, [rj(new Error(..))]
    rejects it. *)
Inductive settlement :=
| Fulfilled (message : Td.Message.t)
| Broken (e : exn).

Inductive promise :=
| Pending
| Settled (o : settlement).

(** An entry [{data, timestamp}] of [_username_cache]. *)
Record cache_entry := { data : Td.Chat.t; timestamp : Z }.

(** The payload that the constructor's handlers emit on a [_sendMsg:...]
    event: [{ok: true, message}] or [{ok: false, code, error_message,
    message}]. *)
Inductive send_result :=
| Sent (message : Td.Message.t)
| NotSent (code : Z) (error_message : string) (message : Td.Message.t).

(** The updates the transport publishes that concern the send-waits, and the
    [ready] event. *)
Inductive update :=
| updateMessageSendSucceeded (message : Td.Message.t) (old_message_id : Z)
| updateMessageSendFailed (message : Td.Message.t) (old_message_id : Z)
    (error_code : Z) (error_message : string)
| ready_event.

(** ** [isNaN] on a string

    [isNaN(s)] converts the string to a number and tests it.  The conversion
    gives [NaN] unless the string, with the white space and the line
    terminators at its two ends taken off, is empty or is a numeric literal:
    a decimal literal with an optional sign, an optional fraction and an
    optional exponent, [Infinity] with an optional sign, or an unsigned
    binary, octal or hexadecimal integer after [0b], [0o] or [0x].  The
    characters are read from the UTF-8 octets of the text. *)
Module Js.

Definition codes (s : string) : list N := map N_of_ascii (list_ascii_of_string s).

(** A white space or a line terminator at the head, taken off: TAB, LF, VT,
    FF, CR, SP, U+00A0, U+1680, U+2000 to U+200A, U+2028, U+2029, U+202F,
    U+205F, U+3000 and U+FEFF. *)
Definition strip_space (cs : list N) : option (list N) :=
  match cs with
  | a :: r1 =>
      if ((9 <=? a) && (a <=? 13) || (a =? 32))%N then Some r1
      else
        match r1 with
        | b :: r2 =>
            if ((a =? 194) && (b =? 160))%N then Some r2
            else
              match r2 with
              | c :: r3 =>
                  if ((a =? 225) && (b =? 154) && (c =? 128)
                      || (a =? 226) && (b =? 128)
                         && ((128 <=? c) && (c <=? 138) || (c =? 168)
                             || (c =? 169) || (c =? 175))
                      || (a =? 226) && (b =? 129) && (c =? 159)
                      || (a =? 227) && (b =? 128) && (c =? 128)
                      || (a =? 239) && (b =? 187) && (c =? 191))%N
                  then Some r3 else None
              | [] => None
              end
        | [] => None
        end
  | [] => None
  end.

Fixpoint skip_spaces (fuel : nat) (cs : list N) : list N :=
  match fuel with
  | O => cs
  | S fuel' =>
      match strip_space cs with
      | Some r => skip_spaces fuel' r
      | None => cs
      end
  end.

Definition decimal (c : N) : bool := ((48 <=? c) && (c <=? 57))%N.
Definition binary (c : N) : bool := ((c =? 48) || (c =? 49))%N.
Definition octal (c : N) : bool := ((48 <=? c) && (c <=? 55))%N.
Definition hexadecimal (c : N) : bool :=
  (decimal c || (65 <=? c) && (c <=? 70) || (97 <=? c) && (c <=? 102))%N.
Definition sign (c : N) : bool := ((c =? 43) || (c =? 45))%N.

(** The digits at the head: how many, and what follows them. *)
Fixpoint digits (digit : N -> bool) (cs : list N) : nat * list N :=
  match cs with
  | c :: r =>
      if digit c then let '(n, rest) := digits digit r in (S n, rest)
      else (O, cs)
  | [] => (O, [])
  end.

(** An exponent part at the head, taken off when there is one. *)
Definition exponent (cs : list N) : list N :=
  match cs with
  | c :: r =>
      if ((c =? 101) || (c =? 69))%N then
        let r' := match r with
                  | s :: r'' => if sign s then r'' else r
                  | [] => r
                  end in
        let '(n, rest) := digits decimal r' in
        if Nat.eqb n 0 then cs else rest
      else cs
  | [] => cs
  end.

Definition unsigned_decimal (cs : list N) : option (list N) :=
  if bool_decide (take 8 cs = codes "Infinity") then Some (drop 8 cs)
  else
    let '(n, r) := digits decimal cs in
    match r with
    | c :: r' =>
        if (c =? 46)%N then
          let '(m, r'') := digits decimal r' in
          if Nat.eqb (n + m) 0 then None else Some (exponent r'')
        else if Nat.eqb n 0 then None else Some (exponent r)
    | [] => if Nat.eqb n 0 then None else Some []
    end.

Definition non_decimal (cs : list N) : option (list N) :=
  match cs with
  | z :: x :: r =>
      if (z =? 48)%N then
        let digit :=
          if ((x =? 98) || (x =? 66))%N then Some binary
          else if ((x =? 111) || (x =? 79))%N then Some octal
          else if ((x =? 120) || (x =? 88))%N then Some hexadecimal
          else None in
        match digit with
        | Some digit =>
            let '(n, rest) := digits digit r in
            if Nat.eqb n 0 then None else Some rest
        | None => None
        end
      else None
  | _ => None
  end.

Definition numeric_literal (cs : list N) : option (list N) :=
  match non_decimal cs with
  | Some rest => Some rest
  | None =>
      match cs with
      | s :: r => if sign s then unsigned_decimal r else unsigned_decimal cs
      | [] => None
      end
  end.

(** The conversion of the string to a number is not [NaN]. *)
Definition is_numeric (s : string) : bool :=
  let cs := codes s in
  let body := skip_spaces (length cs) cs in
  match body with
  | [] => true
  | _ =>
      match numeric_literal body with
      | Some rest =>
          match skip_spaces (length rest) rest with
          | [] => true
          | _ => false
          end
      | None => false
      end
  end.

Definition isNaN (s : string) : bool := negb (is_numeric s).

End Js.

(** The first argument of the facade methods that address a chat.
    [ChatNumber n] is a number, or a numeric string, on which [isNaN] is false
    and [parseInt] is [n]; [ChatString s] is a string on which [isNaN] is
    true, that is one with [Js.isNaN s = true]: a string on which it is false,
    such as [-5], [1.5] or the empty string, never reaches the string branch
    of [_checkChatId]; [ChatOther shown] is any other value on which [isNaN]
    is true, [shown] being its conversion to a string. *)
Inductive chat_ref :=
| ChatNumber (n : Z)
| ChatString (s : string)
| ChatOther (shown : string).

(** [message_ids] of [deleteMessage]: one id or an array of ids. *)
Inductive message_ids_arg :=
| OneId (id : Z)
| IdArray (ids : list Z).

(** The two leading arguments of [answerCallbackQuery], which still accepts
    its two older signatures. *)
Inductive query_arg :=
| QueryId (id : string)
| QueryObject (o : Td.callback_answer).

Inductive options_arg :=
| OptionsObject (o : Td.callback_answer)
| LegacyText (text : string).

Record BotOptions := {
  encrypt_callback_query : bool;
  debug_encrypt_callback_query : bool;
  username_cache_period : option Z
}.

Inductive completion (A : Type) :=
| Return (a : A)
| Throw (e : exn).
Arguments Return {A} a.
Arguments Throw {A} e.

(** [/^@?([a-zA-Z0-9_]+)$/]: the match, when there is one, is the whole
    string, and [match(..)[0]] is that whole string, [@] included. *)
Definition is_word (c : ascii) : bool :=
  let n := N_of_ascii c in
  ((65 <=? n) && (n <=? 90) || (97 <=? n) && (n <=? 122)
   || (48 <=? n) && (n <=? 57) || (n =? 95))%N.

Definition username_match (s : string) : option string :=
  let cs := list_ascii_of_string s in
  let name := match cs with "@"%char :: r => r | _ => cs end in
  match name with
  | [] => None
  | _ => if forallb is_word name then Some s else None
  end.

(** [hay.indexOf(needle) > -1] *)
Fixpoint contains (needle hay : string) : bool :=
  String.prefix needle hay
  || match hay with
     | EmptyString => false
     | String _ rest => contains needle rest
     end.

(** The name of the event a send-wait listens to:
    [`_sendMsg:${chat_id}:${message_id}`]. *)
Definition sendMsg_event (chat_id message_id : Z) : string :=
  "_sendMsg:" +:+ pretty chat_id +:+ ":" +:+ pretty message_id.

Section Facade.
Context `{Platform}.

(** The fields of [this] that the modelled methods read or write.  [_events]
    holds the one-shot listeners that [_waitMessageTillSent] registers with
    [once]: a listener is the closure over the [rs] and [rj] of its promise,
    and is named by that promise.  [promises] and [settlements] are the
    promises created for the waits and every call of an [rs] or [rj], in
    order; [calls] is every operation handed to the transport, in order. *)
Record Bot := {
  ready : bool;
  _encrypt_callback_query : option (list byte);
  _debug_encrypt_callback_query : bool;
  _username_cache_period : Z;
  _username_cache : gmap string cache_entry;
  _inited_chat : gset Z;
  _events : gmap string (list nat);
  promises : list promise;
  settlements : list (nat * settlement);
  calls : list Td.call;
  world : World
}.

Definition set_ready (v : bool) (b : Bot) : Bot :=
  {| ready := v;
     _encrypt_callback_query := _encrypt_callback_query b;
     _debug_encrypt_callback_query := _debug_encrypt_callback_query b;
     _username_cache_period := _username_cache_period b;
     _username_cache := _username_cache b;
     _inited_chat := _inited_chat b;
     _events := _events b;
     promises := promises b;
     settlements := settlements b;
     calls := calls b;
     world := world b |}.

Definition set_username_cache (v : gmap string cache_entry) (b : Bot) : Bot :=
  {| ready := ready b;
     _encrypt_callback_query := _encrypt_callback_query b;
     _debug_encrypt_callback_query := _debug_encrypt_callback_query b;
     _username_cache_period := _username_cache_period b;
     _username_cache := v;
     _inited_chat := _inited_chat b;
     _events := _events b;
     promises := promises b;
     settlements := settlements b;
     calls := calls b;
     world := world b |}.

Definition set_inited_chat (v : gset Z) (b : Bot) : Bot :=
  {| ready := ready b;
     _encrypt_callback_query := _encrypt_callback_query b;
     _debug_encrypt_callback_query := _debug_encrypt_callback_query b;
     _username_cache_period := _username_cache_period b;
     _username_cache := _username_cache b;
     _inited_chat := v;
     _events := _events b;
     promises := promises b;
     settlements := settlements b;
     calls := calls b;
     world := world b |}.

Definition set_events (v : gmap string (list nat)) (b : Bot) : Bot :=
  {| ready := ready b;
     _encrypt_callback_query := _encrypt_callback_query b;
     _debug_encrypt_callback_query := _debug_encrypt_callback_query b;
     _username_cache_period := _username_cache_period b;
     _username_cache := _username_cache b;
     _inited_chat := _inited_chat b;
     _events := v;
     promises := promises b;
     settlements := settlements b;
     calls := calls b;
     world := world b |}.

Definition set_promises (v : list promise) (log : list (nat * settlement))
  (b : Bot) : Bot :=
  {| ready := ready b;
     _encrypt_callback_query := _encrypt_callback_query b;
     _debug_encrypt_callback_query := _debug_encrypt_callback_query b;
     _username_cache_period := _username_cache_period b;
     _username_cache := _username_cache b;
     _inited_chat := _inited_chat b;
     _events := _events b;
     promises := v;
     settlements := log;
     calls := calls b;
     world := world b |}.

Definition set_world (cs : list Td.call) (w : World) (b : Bot) : Bot :=
  {| ready := ready b;
     _encrypt_callback_query := _encrypt_callback_query b;
     _debug_encrypt_callback_query := _debug_encrypt_callback_query b;
     _username_cache_period := _username_cache_period b;
     _username_cache := _username_cache b;
     _inited_chat := _inited_chat b;
     _events := _events b;
     promises := promises b;
     settlements := settlements b;
     calls := cs;
     world := w |}.

(** *** The monad of the methods

    A method is run to its completion against the state of the bot: it
    returns or throws, and leaves a new state.  An [async] method that
    returns is a promise fulfilled with the value, one that throws is a
    promise rejected with the exception. *)
Definition M (A : Type) : Type := Bot -> completion A * Bot.

#[global] Instance M_ret : MRet M := fun A a s => (Return a, s).

#[global] Instance M_bind : MBind M := fun A B k m s =>
  match m s with
  | (Return a, s') => k a s'
  | (Throw e, s') => (Throw e, s')
  end.

Definition throw {A} (e : exn) : M A := fun s => (Throw e, s).

(** [try { body } catch (e) { handler }] *)
Definition try_catch {A} (body : M A) (handler : exn -> M A) : M A := fun s =>
  match body s with
  | (Throw e, s') => handler e s'
  | r => r
  end.

Definition this : M Bot := fun s => (Return s, s).

Definition modify (f : Bot -> Bot) : M unit := fun s => (Return tt, f s).

(** [await this.run(name, params)] *)
Definition run (c : Td.call) : M (Td.reply c) := fun s =>
  let '(o, w) := transport c (world s) in
  let s' := set_world (calls s ++ [c]) w s in
  match o with
  | Resolved v => (Return v, s')
  | Rejected e => (Throw e, s')
  end.

(** [Date.now()] *)
Definition now : M Z := fun s =>
  let '(t, w) := Date_now (world s) in (Return t, set_world (calls s) w s).

(** [crypto.randomBytes(n)] *)
Definition random (n : nat) : M (list byte) := fun s =>
  let '(bs, w) := randomBytes n (world s) in
  (Return bs, set_world (calls s) w s).

(** *** The constructor

    Of the constructor, the initial values of the fields above; the handlers
    it installs are [on_updateMessageSendSucceeded],
    [on_updateMessageSendFailed] and [on_ready] below. *)
Definition constructor (bot_token : string) (options : BotOptions) (w : World)
  : Bot :=
  {| ready := false;
     _encrypt_callback_query :=
       if encrypt_callback_query options then Some (scryptSync bot_token)
       else None;
     _debug_encrypt_callback_query := debug_encrypt_callback_query options;
     _username_cache_period :=
       match username_cache_period options with
       | Some p => if p =? 0 then 30 * 60 * 1000 else p
       | None => 30 * 60 * 1000
       end;
     _username_cache := ∅;
     _inited_chat := ∅;
     _events := ∅;
     promises := [];
     settlements := [];
     calls := [];
     world := w |}.

(** *** [_checkChatId] *)
Definition cached_id (username : string) : M (option Z) :=
  bot ← this;
  match _username_cache bot !! username with
  | Some cached_chat =>
      t ← now;
      if bool_decide (t - timestamp cached_chat < _username_cache_period bot)
      then mret (Some (Td.Chat.id (data cached_chat)))
      else mret None
  | None => mret None
  end.

Definition _checkChatId (chat_id : chat_ref) : M Z :=
  match chat_id with
  | ChatOther shown =>
      throw (JsError ("chat_id is not a string nor number: " +:+ shown))
  | ChatString s =>
      try_catch
        (match username_match s with
         | None => throw (JsError "Cannot read property '0' of null")
         | Some username =>
             hit ← cached_id username;
             match hit with
             | Some id => mret id
             | None =>
                 resolved_chat ← run (Td.searchPublicChat username);
                 match resolved_chat with
                 | Some chat =>
                     t ← now;
                     bot ← this;
                     modify (set_username_cache
                               (<[username := {| data := chat; timestamp := t |}]>
                                  (_username_cache bot)));;
                     mret (Td.Chat.id chat)
                 | None => throw (JsError "Not resolved.")
                 end
             end
         end)
        (fun e =>
           match exn_message e with
           | Some m =>
               if contains "Too Many Requests" m then throw e
               else throw (JsError ("cannot resolve name: " +:+ s))
           | None => throw (JsError "Cannot read property 'indexOf' of undefined")
           end)
  | ChatNumber n => mret n
  end.

(** *** [_initChatIfNeeded] *)
Definition create_chat (chat_id : Z) : M unit :=
  if chat_id <? - 10 ^ 12 then
    run (Td.getSupergroup (Z.abs chat_id - 10 ^ 12));;
    run (Td.createSupergroupChat (Z.abs chat_id - 10 ^ 12) false);;
    mret tt
  else if chat_id <? 0 then
    run (Td.getBasicGroup (Z.abs chat_id));;
    run (Td.createBasicGroupChat (Z.abs chat_id) false);;
    mret tt
  else
    run (Td.getUser chat_id);;
    run (Td.createPrivateChat chat_id false);;
    mret tt.

(** The two kind-specific calls of [create_chat], by the branch taken: the
    descriptor fetch and the creation call. *)
Definition descriptor_call (chat_id : Z) : Td.call :=
  if chat_id <? - 10 ^ 12 then Td.getSupergroup (Z.abs chat_id - 10 ^ 12)
  else if chat_id <? 0 then Td.getBasicGroup (Z.abs chat_id)
  else Td.getUser chat_id.

Definition creation_call (chat_id : Z) : Td.call :=
  if chat_id <? - 10 ^ 12
  then Td.createSupergroupChat (Z.abs chat_id - 10 ^ 12) false
  else if chat_id <? 0 then Td.createBasicGroupChat (Z.abs chat_id) false
  else Td.createPrivateChat chat_id false.

(** The [try { getChat } catch (e) { ... }] block. *)
Definition probe_or_create (chat_id : Z) : M unit :=
  try_catch (run (Td.getChat chat_id);; mret tt)
            (fun e => create_chat chat_id).

Definition _initChatIfNeeded (chat_id : Z) : M unit :=
  bot ← this;
  if bool_decide (chat_id ∈ _inited_chat bot) then mret tt
  else
    probe_or_create chat_id;;
    bot ← this;
    modify (set_inited_chat ({[chat_id]} ∪ _inited_chat bot)).

(** *** [setChatDescription] *)
Definition setChatDescription (chat_id : chat_ref) (description : string)
  : M bool :=
  bot ← this;
  if negb (ready bot) then throw (JsError "Not ready.")
  else
    chat_id ← _checkChatId chat_id;
    if chat_id >? - 10 ^ 12 then throw (JsError "Not a supergroup or channel.")
    else
      _initChatIfNeeded chat_id;;
      ret ← run (Td.setSupergroupDescription (Z.abs chat_id - 10 ^ 12)
                   description);
      if String.eqb (Td.at_type ret) "ok" then mret true
      else throw (Thrown ret).

(** *** [answerCallbackQuery] *)
Definition answerCallbackQuery (callback_query_id : query_arg)
  (options : options_arg) (arguments_2 : option bool) : M bool :=
  let options :=
    match options with
    | OptionsObject o => o
    | LegacyText text =>
        {| Td.callback_query_id := None; Td.text := Some text;
           Td.show_alert := arguments_2; Td.url := None;
           Td.cache_time := None |}
    end in
  let options :=
    match callback_query_id with
    | QueryObject o => o
    | QueryId id =>
        {| Td.callback_query_id := Some id; Td.text := Td.text options;
           Td.show_alert := Td.show_alert options; Td.url := Td.url options;
           Td.cache_time := Td.cache_time options |}
    end in
  ret ← run (Td.answerCallbackQuery options);
  if String.eqb (Td.at_type ret) "ok" then mret true
  else throw (Thrown ret).

(** *** [deleteMessage] *)
Definition _loadMessageBatch (chat_id : Z) (message_ids : list Z)
  : M (list (option Td.Message.t)) :=
  run (Td.getMessages chat_id message_ids).

Definition deletable (m : option Td.Message.t) : bool :=
  match m with
  | Some m => Td.Message.can_be_deleted_for_all_users m
  | None => false
  end.

Definition deleteMessage (chat_id : chat_ref) (message_ids : message_ids_arg)
  : M bool :=
  bot ← this;
  if negb (ready bot) then throw (JsError "Not ready.")
  else
    chat_id ← _checkChatId chat_id;
    _initChatIfNeeded chat_id;;
    let message_ids :=
      match message_ids with OneId id => [id] | IdArray ids => ids end in
    let message_ids := map get_tdlib_message_id message_ids in
    messages ← _loadMessageBatch chat_id message_ids;
    let to_be_deleted :=
      omap (fmap Td.Message.id) (List.filter deletable messages) in
    if Nat.eqb (length to_be_deleted) 0 then mret true
    else if (100 <? length to_be_deleted)%nat
    then throw (JsError "Too many messages.")
    else
      ret ← run (Td.deleteMessages chat_id to_be_deleted true);
      if String.eqb (Td.at_type ret) "ok" then mret true
      else throw (Thrown ret).

(** *** The send-waits

    Modelled from the spec: the event bus ([once] and [emit], which [Bot]
    inherits through [TdClientActor] of [./td_client_actor]).  A handler
    registered with [once] is called for the next occurrence of its event
    only; [emit] calls the handlers of the event synchronously, in the order
    of their registration, and answers whether there was one.  Only the
    listeners of the [_sendMsg:...] events are kept in [_events]; the
    handlers that the constructor installs with [on] are the functions
    [on_...] below, called by [publish]. *)
Definition once (name : string) (p : nat) : M unit :=
  bot ← this;
  modify (set_events
            (<[name := default [] (_events bot !! name) ++ [p]]> (_events bot))).

(** [new Promise(..)], and a call of its [rs] or of its [rj]: a promise that
    is settled already stays as it is. *)
Definition new_Promise : M nat :=
  bot ← this;
  modify (set_promises (promises bot ++ [Pending]) (settlements bot));;
  mret (length (promises bot)).

Definition settle (p : nat) (o : settlement) : M unit :=
  bot ← this;
  modify (set_promises
            (match promises bot !! p with
             | Some Pending => <[p := Settled o]> (promises bot)
             | _ => promises bot
             end)
            (settlements bot ++ [(p, o)])).

(** The listener of [_waitMessageTillSent]. *)
Definition on_sendMsg (p : nat) (update : send_result) : M unit :=
  match update with
  | Sent message => settle p (Fulfilled message)
  | NotSent code error_message _ =>
      settle p (Broken (JsError (pretty code +:+ ": " +:+ error_message)))
  end.

Fixpoint call_listeners (listeners : list nat) (update : send_result)
  : M unit :=
  match listeners with
  | [] => mret tt
  | p :: rest => on_sendMsg p update;; call_listeners rest update
  end.

Definition emit (name : string) (update : send_result) : M bool :=
  bot ← this;
  match _events bot !! name with
  | None => mret false
  | Some listeners =>
      modify (set_events (delete name (_events bot)));;
      call_listeners listeners update;;
      mret true
  end.

Definition _waitMessageTillSent (chat_id message_id : Z) : M nat :=
  p ← new_Promise;
  once (sendMsg_event chat_id message_id) p;;
  mret p.

(** The handlers installed by the constructor. *)
Definition on_updateMessageSendSucceeded (message : Td.Message.t)
  (old_message_id : Z) : M bool :=
  emit (sendMsg_event (Td.Message.chat_id message) old_message_id)
       (Sent message).

Definition on_updateMessageSendFailed (message : Td.Message.t)
  (old_message_id error_code : Z) (error_message : string) : M bool :=
  emit (sendMsg_event (Td.Message.chat_id message) old_message_id)
       (NotSent error_code error_message message).

Definition on_ready : M unit := modify (set_ready true).

(** The event-delivery path: the transport publishes one update. *)
Definition publish (u : update) : M unit :=
  match u with
  | updateMessageSendSucceeded message old_message_id =>
      on_updateMessageSendSucceeded message old_message_id;; mret tt
  | updateMessageSendFailed message old_message_id error_code error_message =>
      on_updateMessageSendFailed message old_message_id error_code
        error_message;;
      mret tt
  | ready_event => on_ready
  end.

(** The event an update is emitted on, when it concerns a send-wait. *)
Definition update_event (u : update) : option string :=
  match u with
  | updateMessageSendSucceeded message old_message_id
  | updateMessageSendFailed message old_message_id _ _ =>
      Some (sendMsg_event (Td.Message.chat_id message) old_message_id)
  | ready_event => None
  end.

(** What the wait of an update's event is settled with. *)
Definition update_settlement (u : update) : option settlement :=
  match u with
  | updateMessageSendSucceeded message _ => Some (Fulfilled message)
  | updateMessageSendFailed _ _ error_code error_message =>
      Some (Broken (JsError (pretty error_code +:+ ": " +:+ error_message)))
  | ready_event => None
  end.

(** How often [rs] or [rj] of promise [p] has been called. *)
Definition settled_times (p : nat) (b : Bot) : nat :=
  length (List.filter (fun e => Nat.eqb e.1 p) (settlements b)).

(** Every promise named by a listener or by a recorded settlement has been
    created: promises are named by their rank of creation. *)
Definition registry_ok (b : Bot) : Prop :=
  map_Forall
    (fun _ listeners =>
       Forall (fun p => (p < length (promises b))%nat) listeners)
    (_events b)
  /\ Forall (fun e => (e.1 < length (promises b))%nat) (settlements b).

(** *** The callback payloads

    [encrypt_callback_data] is the [callback_data] branch of
    [_parseReplyMarkup]: its result is the [data] of the button.
    [decrypt_callback_data] is the [callbackQueryPayloadData] case of
    [_processIncomingCallbackQuery]: its result is [evt.data], or [None] when
    the update is discarded. *)
Definition encrypt_callback_data (callback_data : string) : M string :=
  bot ← this;
  match _encrypt_callback_query bot with
  | Some key =>
      let data_buffer := Buffer.from_utf8 callback_data in
      if (48 <? length data_buffer)%nat
      then throw (JsError "Payload too long. 48 bytes max.")
      else
        iv ← random 16;
        mret (Buffer.to_base64
                (iv ++ Cfb.encrypt (aes256_encrypt_block key) (Cfb.start iv)
                         (Buffer.from_utf8 callback_data)))
  | None => mret (Buffer.to_base64 (Buffer.from_utf8 callback_data))
  end.

Definition decrypt_callback_data (payload_data : string) : M (option string) :=
  bot ← this;
  match _encrypt_callback_query bot with
  | Some key =>
      let payload := Buffer.from_base64 payload_data in
      let iv := take 16 payload in
      (* createDecipheriv throws on an IV that is not of 16 octets *)
      if Nat.eqb (length iv) 16
      then mret (Some (Buffer.to_utf8
                         (Cfb.decrypt (aes256_encrypt_block key) (Cfb.start iv)
                            (drop 16 payload))))
      else mret None
  | None => mret (Some (Buffer.to_utf8 (Buffer.from_base64 payload_data)))
  end.

End Facade.

(** ** A scripted platform

    A transport whose operations are rejected when [fails] says so, and
    otherwise resolve with [ok], with the chat 77 for a public name and with
    [messages] for a batch of messages; a clock that advances by one second
    at each reading; a random source that counts. *)
Module Script.

Definition rejection : exn :=
  Thrown {| Td.at_type := "error"; Td.code := Some 400;
            Td.message := Some "Bad Request" |}.

Definition answer (messages : list (option Td.Message.t)) (c : Td.call)
  : Td.reply c :=
  match c return Td.reply c with
  | Td.searchPublicChat _ => Some {| Td.Chat.id := 77 |}
  | Td.getMessages _ _ => messages
  | _ => Td.ok
  end.


Definition platform (fails : Td.call -> bool)
  (messages : list (option Td.Message.t)) : Platform :=
  {| World := Z * N;
     transport c w :=
       (if fails c then Rejected rejection else Resolved (answer messages c), w);
     Date_now w := (w.1, (w.1 + 1000, w.2));
     randomBytes n w := (replicate n (Buffer.byte_of_N w.2), (w.1, N.succ w.2));
     randomBytes_length n w := length_replicate n (Buffer.byte_of_N w.2);
     scryptSync token := take 32 (Buffer.from_utf8 token ++ replicate 32 x00);
     aes256_encrypt_block key block := map (Buffer.byte_xor x5a) (rev block);
     get_tdlib_message_id id := id * 1048576 |}.

(** A bot as the constructor leaves it, on the scripted platform. *)
Definition fresh (fails : Td.call -> bool)
  (messages : list (option Td.Message.t)) (options : BotOptions)
  : @Bot (platform fails messages) :=
  @constructor (platform fails messages) "42:token" options (0, 0%N).

Definition plain : BotOptions :=
  {| encrypt_callback_query := false;
     debug_encrypt_callback_query := false;
     username_cache_period := None |}.

Definition encrypting : BotOptions :=
  {| encrypt_callback_query := true;
     debug_encrypt_callback_query := false;
     username_cache_period := None |}.

(** Every operation succeeds. *)
Definition calm (c : Td.call) : bool := false.

(** No chat is known to the transport yet: the probe is rejected. *)
Definition unknown_chat (c : Td.call) : bool :=
  match c with Td.getChat _ => true | _ => false end.

(** Neither the chat nor its user is known. *)
Definition unknown_user (c : Td.call) : bool :=
  match c with Td.getChat _ | Td.getUser _ => true | _ => false end.

End Script.

(** ** Reply markups

    The markup objects of the Bot API, as [_parseReplyMarkup] reads them, and
    the markup objects of the transport that it builds.  A key that the source
    tests with [in] is present when its field is [Some], and [callback_game],
    whose value is never read, when its field is [true]; a key that it tests
    for truth is a [bool]; a value that it passes on as it is may be
    [undefined] and is an [option]. *)

Module InlineKeyboardButton.
Record t := {
  text : string;
  url : option string;
  callback_data : option string;
  switch_inline_query : option string;
  switch_inline_query_current_chat : option string;
  callback_game : bool;
  pay : bool
}.
End InlineKeyboardButton.

Module KeyboardButton.
Record t := { text : string; request_contact : bool; request_location : bool }.
End KeyboardButton.

Module ReplyMarkup.
Record t := {
  inline_keyboard : option (list (list InlineKeyboardButton.t));
  keyboard : option (list (list KeyboardButton.t));
  resize_keyboard : option bool;
  one_time_keyboard : option bool;
  selective : option bool;
  remove_keyboard : bool;
  force_reply : bool
}.
End ReplyMarkup.

Module TdMarkup.

Inductive inlineKeyboardButtonType :=
| inlineKeyboardButtonTypeUrl (url : string)
| inlineKeyboardButtonTypeCallback (data : string)
| inlineKeyboardButtonTypeSwitchInline (query : string) (in_current_chat : bool)
| inlineKeyboardButtonTypeCallbackGame
| inlineKeyboardButtonTypeBuy.

(** [type] stays unset on a button that has none of the keys. *)
Record inlineKeyboardButton := {
  inline_text : string;
  inline_type : option inlineKeyboardButtonType
}.

Inductive keyboardButtonType :=
| keyboardButtonTypeRequestPhoneNumber
| keyboardButtonTypeRequestLocation
| keyboardButtonTypeText.

Record keyboardButton := { button_text : string; button_type : keyboardButtonType }.

Inductive replyMarkup :=
| replyMarkupInlineKeyboard (rows : list (list inlineKeyboardButton))
| replyMarkupShowKeyboard (rows : list (list keyboardButton))
    (resize_keyboard one_time is_personal : option bool)
| replyMarkupRemoveKeyboard (is_personal : option bool)
| replyMarkupForceReply (is_personal : option bool).

End TdMarkup.

Section Keyboards.
Context `{Platform}.

(** [for (let x of l) { out.push(await body(x)) }] *)
Fixpoint for_of {A B : Type} (body : A -> M B) (l : list A) : M (list B) :=
  match l with
  | [] => mret []
  | x :: rest =>
      y ← body x;
      ys ← for_of body rest;
      mret (y :: ys)
  end.

(** The body of the inner loop over an inline keyboard. *)
Definition parse_inline_button (c : InlineKeyboardButton.t)
  : M TdMarkup.inlineKeyboardButton :=
  let col type :=
    {| TdMarkup.inline_text := InlineKeyboardButton.text c;
       TdMarkup.inline_type := type |} in
  match InlineKeyboardButton.url c with
  | Some url => mret (col (Some (TdMarkup.inlineKeyboardButtonTypeUrl url)))
  | None =>
  match InlineKeyboardButton.callback_data c with
  | Some callback_data =>
      data ← encrypt_callback_data callback_data;
      mret (col (Some (TdMarkup.inlineKeyboardButtonTypeCallback data)))
  | None =>
  match InlineKeyboardButton.switch_inline_query c with
  | Some query =>
      mret (col (Some (TdMarkup.inlineKeyboardButtonTypeSwitchInline query
                         false)))
  | None =>
  match InlineKeyboardButton.switch_inline_query_current_chat c with
  | Some query =>
      mret (col (Some (TdMarkup.inlineKeyboardButtonTypeSwitchInline query
                         true)))
  | None =>
      if InlineKeyboardButton.callback_game c
      then mret (col (Some TdMarkup.inlineKeyboardButtonTypeCallbackGame))
      else if InlineKeyboardButton.pay c
      then mret (col (Some TdMarkup.inlineKeyboardButtonTypeBuy))
      else mret (col None)
  end end end end.

(** The body of the inner loop over a custom keyboard. *)
Definition parse_button (c : KeyboardButton.t) : TdMarkup.keyboardButton :=
  {| TdMarkup.button_text := KeyboardButton.text c;
     TdMarkup.button_type :=
       if KeyboardButton.request_contact c
       then TdMarkup.keyboardButtonTypeRequestPhoneNumber
       else if KeyboardButton.request_location c
       then TdMarkup.keyboardButtonTypeRequestLocation
       else TdMarkup.keyboardButtonTypeText |}.

(** [_parseReplyMarkup]; [None] is the [undefined] it returns on a markup
    that has none of the four keys. *)
Definition _parseReplyMarkup (replymarkup : ReplyMarkup.t)
  : M (option TdMarkup.replyMarkup) :=
  match ReplyMarkup.inline_keyboard replymarkup with
  | Some inline_keyboard =>
      rows ← for_of (for_of parse_inline_button) inline_keyboard;
      mret (Some (TdMarkup.replyMarkupInlineKeyboard rows))
  | None =>
  match ReplyMarkup.keyboard replymarkup with
  | Some keyboard =>
      mret (Some (TdMarkup.replyMarkupShowKeyboard
                    (map (map parse_button) keyboard)
                    (ReplyMarkup.resize_keyboard replymarkup)
                    (ReplyMarkup.one_time_keyboard replymarkup)
                    (ReplyMarkup.selective replymarkup)))
  | None =>
      if ReplyMarkup.remove_keyboard replymarkup
      then mret (Some (TdMarkup.replyMarkupRemoveKeyboard
                         (ReplyMarkup.selective replymarkup)))
      else if ReplyMarkup.force_reply replymarkup
      then mret (Some (TdMarkup.replyMarkupForceReply
                         (ReplyMarkup.selective replymarkup)))
      else mret None
  end end.

(** *** Interleavings of registrations and deliveries *)

(** What happens to the send-waits of a bot: a wait is registered, or the
    transport publishes an update. *)
Inductive action :=
| Register (chat_id message_id : Z)
| Deliver (u : update).

Definition act (a : action) (b : Bot) : Bot :=
  match a with
  | Register chat_id message_id => (_waitMessageTillSent chat_id message_id b).2
  | Deliver u => (publish u b).2
  end.

Definition acts (l : list action) (b : Bot) : Bot := foldl (fun b a => act a b) b l.

End Keyboards.

(** ** Sending a message

    [sendMessage], [_generateFormattedText], [_sendMessage] and
    [_loadMessage]. *)

Module Send.

Record textEntity := { entity_offset : Z; entity_length : Z; entity_type : string }.

(** A formatted text: the object that [parseTextEntities] resolves with, or
    the bare [{text}], which has no [entities]. *)
Record formattedText := { text : string; entities : option (list textEntity) }.

Inductive inputMessageContent :=
| inputMessageText (disable_web_page_preview : option bool)
    (text : formattedText).

(** The [opt] that [_sendMessage] hands to the transport. *)
Record request := {
  chat_id : Z;
  reply_to_message_id : Z;
  disable_notification : bool;
  from_background : bool;
  input_message_content : inputMessageContent;
  reply_markup : option TdMarkup.replyMarkup
}.

Inductive call :=
| parseTextEntities (text : string) (parse_mode : string)
| getMessage (chat_id message_id : Z)
| sendMessage (opt : request).

Definition reply (c : call) : Type :=
  match c with
  | parseTextEntities _ _ => formattedText
  | getMessage _ _ | sendMessage _ => Td.Message.t
  end.

End Send.

(** The [options] of the sending methods. *)
Module SendOptions.
Record t := {
  disable_web_page_preview : option bool;
  parse_mode : option string;
  reply_to_message_id : option Z;
  disable_notification : option bool;
  reply_markup : option ReplyMarkup.t
}.
End SendOptions.

(** Modelled from the spec: the transport ([TdClientActor.run] of
    [./td_client_actor]) again, on the three operations of sending. *)
Class Messenger `{Platform} := {
  messenger : forall c : Send.call, World -> outcome (Send.reply c) * World
}.

Section Sending.
Context `{Messenger}.

(** A bot together with the trace of the sending operations handed to the
    transport, in order. *)
Record Session := { core : Bot; sent : list Send.call }.

Definition MS (A : Type) : Type := Session -> completion A * Session.

#[global] Instance MS_ret : MRet MS := fun A a s => (Return a, s).

#[global] Instance MS_bind : MBind MS := fun A B k m s =>
  match m s with
  | (Return a, s') => k a s'
  | (Throw e, s') => (Throw e, s')
  end.

(** A method of the bot, run on the bot of the session. *)
Definition lift {A} (m : M A) : MS A := fun s =>
  let '(r, b) := m (core s) in (r, {| core := b; sent := sent s |}).

Definition try_catch_MS {A} (body : MS A) (handler : exn -> MS A) : MS A :=
  fun s =>
    match body s with
    | (Throw e, s') => handler e s'
    | r => r
    end.

(** [await this.run(name, params)] for a sending operation. *)
Definition run_send (c : Send.call) : MS (Send.reply c) := fun s =>
  let '(o, w) := messenger c (world (core s)) in
  let s' := {| core := set_world (calls (core s)) w (core s);
               sent := sent s ++ [c] |} in
  match o with
  | Resolved v => (Return v, s')
  | Rejected e => (Throw e, s')
  end.

(** *** [_generateFormattedText] *)
Definition _generateFormattedText (text : string) (parse_mode : option string)
  : MS Send.formattedText :=
  let bare := {| Send.text := text; Send.entities := None |} in
  match parse_mode with
  | Some mode =>
      if String.eqb mode "Markdown"
      then run_send (Send.parseTextEntities text "textParseModeMarkdown")
      else if String.eqb mode "HTML"
      then run_send (Send.parseTextEntities text "textParseModeHTML")
      else mret bare
  | None => mret bare
  end.

(** *** [_loadMessage] *)
Definition _loadMessage (chat_id message_id : Z) : MS Td.Message.t :=
  run_send (Send.getMessage chat_id message_id).

(** *** [_sendMessage]

    The promise it returns is that of [_waitMessageTillSent]. *)

(** [if (options.reply_markup) opt.reply_markup = this._parseReplyMarkup(..)] *)
Definition markup_of (options : SendOptions.t)
  : MS (option TdMarkup.replyMarkup) :=
  match SendOptions.reply_markup options with
  | Some markup => lift (_parseReplyMarkup markup)
  | None => mret None
  end.

(** The block that loads the message replied to, and forgets the reply when
    the message is not found; its value is the [opt.reply_to_message_id] it
    leaves. *)
Definition reply_target (chat_id reply_to_message_id : Z) : MS Z :=
  if reply_to_message_id =? 0 then mret reply_to_message_id
  else
    try_catch_MS
      (_loadMessage chat_id reply_to_message_id;; mret reply_to_message_id)
      (fun e => mret 0).

Definition _sendMessage (chat_id : chat_ref)
  (content : Send.inputMessageContent) (options : SendOptions.t) : MS nat :=
  chat_id ← lift (_checkChatId chat_id);
  let reply_to_message_id :=
    get_tdlib_message_id
      (default 0 (SendOptions.reply_to_message_id options)) in
  reply_markup ← markup_of options;
  lift (_initChatIfNeeded chat_id);;
  reply_to_message_id ← reply_target chat_id reply_to_message_id;
  old_msg ←
    run_send
      (Send.sendMessage
         {| Send.chat_id := chat_id;
            Send.reply_to_message_id := reply_to_message_id;
            Send.disable_notification :=
              default false (SendOptions.disable_notification options);
            Send.from_background := true;
            Send.input_message_content := content;
            Send.reply_markup := reply_markup |});
  lift (_waitMessageTillSent chat_id (Td.Message.id old_msg)).

(** *** [sendMessage] *)
Definition sendMessage (chat_id : chat_ref) (text : string)
  (options : SendOptions.t) : MS nat :=
  bot ← lift this;
  if negb (ready bot) then lift (throw (JsError "Not ready."))
  else
    formatted ← _generateFormattedText text (SendOptions.parse_mode options);
    _sendMessage chat_id
      (Send.inputMessageText (SendOptions.disable_web_page_preview options)
         formatted)
      options.

End Sending.

(** ** A scripted messenger

    On the scripted platform: a sending operation is rejected when [lost]
    says so; otherwise a text is parsed to itself without entities, a message
    is found as asked for, and a sent message is echoed under the
    provisional id [5 * 2^20]. *)
Module Outbox.

Definition answer (c : Send.call) : Send.reply c :=
  match c return Send.reply c with
  | Send.parseTextEntities text _ =>
      {| Send.text := text; Send.entities := Some [] |}
  | Send.getMessage chat_id message_id =>
      {| Td.Message.id := message_id; Td.Message.chat_id := chat_id;
         Td.Message.can_be_deleted_for_all_users := true |}
  | Send.sendMessage opt =>
      {| Td.Message.id := 5242880; Td.Message.chat_id := Send.chat_id opt;
         Td.Message.can_be_deleted_for_all_users := true |}
  end.

Definition messenger (fails : Td.call -> bool)
  (messages : list (option Td.Message.t)) (lost : Send.call -> bool)
  : @Messenger (Script.platform fails messages) :=
  {| messenger c w :=
       (if lost c then Rejected Script.rejection else Resolved (answer c), w)
  |}.

(** A session on a bot that is ready. *)
Definition session (fails : Td.call -> bool)
  (messages : list (option Td.Message.t)) (options : BotOptions)
  : @Session (Script.platform fails messages) :=
  {| core := set_ready true (Script.fresh fails messages options);
     sent := [] |}.

Definition delivered (c : Send.call) : bool := false.

(** The message replied to is gone. *)
Definition reply_gone (c : Send.call) : bool :=
  match c with Send.getMessage _ _ => true | _ => false end.

(** The transport refuses to send. *)
Definition refused (c : Send.call) : bool :=
  match c with Send.sendMessage _ => true | _ => false end.

Definition bare : SendOptions.t :=
  {| SendOptions.disable_web_page_preview := None;
     SendOptions.parse_mode := None;
     SendOptions.reply_to_message_id := None;
     SendOptions.disable_notification := None;
     SendOptions.reply_markup := None |}.

End Outbox.

(** ** Predicates on traces and registries *)

(** A call that is no [deleteMessages], or one that revokes between 1 and
    100 messages. *)
Definition within_limit (c : Td.call) : Prop :=
  match c with
  | Td.deleteMessages _ message_ids revoke =>
      revoke = true /\ (1 <= length message_ids <= 100)%nat
  | _ => True
  end.

(** A call that [_initChatIfNeeded] may make for a chat. *)
Definition prepares (chat_id : Z) (c : Td.call) : Prop :=
  c = Td.getChat chat_id \/ c = descriptor_call chat_id
  \/ c = creation_call chat_id.

Section Registry.
Context `{Platform}.

(** The listeners and the promises agree: a promise is listened for at most
    once, under one event, and as long as it is listened for it is pending;
    a pending promise has seen no call of its [rs] or [rj], and no promise
    has seen more than one. *)
Definition waits_ok (b : Bot) : Prop :=
  registry_ok b
  /\ (forall name ls, _events b !! name = Some ls ->
        NoDup ls /\ Forall (fun p => promises b !! p = Some Pending) ls)
  /\ (forall n1 n2 l1 l2 p,
        _events b !! n1 = Some l1 -> _events b !! n2 = Some l2 ->
        p ∈ l1 -> p ∈ l2 -> n1 = n2)
  /\ (forall p, promises b !! p = Some Pending -> settled_times p b = 0%nat)
  /\ (forall p, (settled_times p b <= 1)%nat).

(** Two states of a bot that differ in nothing but the world, that is in
    how far the clock and the random source have been read. *)
Definition same_but_world (b b' : Bot) : Prop :=
  ready b' = ready b
  /\ _encrypt_callback_query b' = _encrypt_callback_query b
  /\ _debug_encrypt_callback_query b' = _debug_encrypt_callback_query b
  /\ _username_cache_period b' = _username_cache_period b
  /\ _username_cache b' = _username_cache b
  /\ _inited_chat b' = _inited_chat b
  /\ _events b' = _events b
  /\ promises b' = promises b
  /\ settlements b' = settlements b
  /\ calls b' = calls b.

(** What [_parseReplyMarkup] makes of a button of an inline keyboard: the
    label is kept, a [url] goes before everything else, and the data of a
    callback button is a token that every bot with the encryption setting of
    [b] reads back as the [callback_data]. *)
Definition button_parsed (b : Bot) (c : InlineKeyboardButton.t)
  (col : TdMarkup.inlineKeyboardButton) : Prop :=
  TdMarkup.inline_text col = InlineKeyboardButton.text c
  /\ (forall url, InlineKeyboardButton.url c = Some url ->
        TdMarkup.inline_type col
        = Some (TdMarkup.inlineKeyboardButtonTypeUrl url))
  /\ (InlineKeyboardButton.url c = None ->
      forall d, InlineKeyboardButton.callback_data c = Some d ->
      exists token,
        TdMarkup.inline_type col
        = Some (TdMarkup.inlineKeyboardButtonTypeCallback token)
        /\ forall b', _encrypt_callback_query b' = _encrypt_callback_query b ->
             decrypt_callback_data token b' = (Return (Some d), b')).

(** Two states of a bot with the same listeners, promises and recorded
    settlements. *)
Definition same_waits (b b' : Bot) : Prop :=
  _events b' = _events b
  /\ promises b' = promises b
  /\ settlements b' = settlements b.

(** A button whose callback data is too long to be encrypted. *)
Definition oversized (c : InlineKeyboardButton.t) : Prop :=
  InlineKeyboardButton.url c = None
  /\ exists d, InlineKeyboardButton.callback_data c = Some d
               /\ (48 < length (Buffer.from_utf8 d))%nat.

End Registry.

(** * Properties *)

Ltac unfold_M :=
  unfold mbind, M_bind, mret, M_ret, throw, try_catch, this, modify in *.

Section Initialisation.
Context `{Platform}.

Implicit Types (s : Bot) (chat_id : Z).

(** What [run] does: one more call in the trace, the transport's outcome. *)
Lemma run_eq (c : Td.call) s :
  run c s =
    (match (transport c (world s)).1 with
     | Resolved v => Return v
     | Rejected e => Throw e
     end,
     set_world (calls s ++ [c]) (transport c (world s)).2 s).
Proof.
  unfold run. destruct (transport c (world s)) as [[v|e] w]; reflexivity.
Qed.

Lemma run_calls (c : Td.call) s r s' :
  run c s = (r, s') -> calls s' = calls s ++ [c].
Proof. rewrite run_eq. intros [= ? <-]. reflexivity. Qed.

Lemma run_inited (c : Td.call) s r s' :
  run c s = (r, s') -> _inited_chat s' = _inited_chat s.
Proof. rewrite run_eq. intros [= ? <-]. reflexivity. Qed.

(** Two calls in a row, the result of the second discarded. *)
Lemma then_inited (c1 c2 : Td.call) s (r : completion unit) s' :
  (run c1;; run c2;; mret tt) s = (r, s') ->
  _inited_chat s' = _inited_chat s.
Proof.
  unfold_M. intros Hr.
  destruct (run c1 s) as [[v1|e1] s1] eqn:E1.
  - destruct (run c2 s1) as [[v2|e2] s2] eqn:E2;
      injection Hr as _ <-;
      rewrite (run_inited _ _ _ _ E2); apply (run_inited _ _ _ _ E1).
  - injection Hr as _ <-. apply (run_inited _ _ _ _ E1).
Qed.

Lemma create_chat_inited chat_id s r s' :
  create_chat chat_id s = (r, s') -> _inited_chat s' = _inited_chat s.
Proof.
  unfold create_chat.
  destruct (chat_id <? - 10 ^ 12); [|destruct (chat_id <? 0)];
    apply then_inited.
Qed.

Lemma probe_or_create_inited chat_id s r s' :
  probe_or_create chat_id s = (r, s') -> _inited_chat s' = _inited_chat s.
Proof.
  unfold probe_or_create. unfold_M. rewrite run_eq.
  destruct (transport (Td.getChat chat_id) (world s)) as [[v|e] w]; simpl.
  - intros [= ? <-]. reflexivity.
  - intros Hc. apply create_chat_inited in Hc. exact Hc.
Qed.

Lemma probe_or_create_calls chat_id s r s' :
  probe_or_create chat_id s = (r, s') ->
  exists rest, calls s' = calls s ++ Td.getChat chat_id :: rest.
Proof.
  unfold probe_or_create. unfold_M. rewrite run_eq.
  destruct (transport (Td.getChat chat_id) (world s)) as [[v|e] w]; simpl.
  - intros [= ? <-]. exists []. reflexivity.
  - unfold create_chat.
    destruct (chat_id <? - 10 ^ 12); [|destruct (chat_id <? 0)];
      unfold_M; rewrite !run_eq; simpl;
      repeat match goal with
        | |- context [transport ?c ?w] =>
            destruct (transport c w) as [[?|?] ?]; simpl
        end;
      intros [= ? <-]; simpl; rewrite <- ?app_assoc; simpl; eauto.
Qed.

Lemma initChat_unfold chat_id s :
  _initChatIfNeeded chat_id s =
    if bool_decide (chat_id ∈ _inited_chat s) then (Return tt, s)
    else match probe_or_create chat_id s with
         | (Return _, s') =>
             (Return tt, set_inited_chat ({[chat_id]} ∪ _inited_chat s') s')
         | (Throw e, s') => (Throw e, s')
         end.
Proof.
  unfold _initChatIfNeeded. unfold_M.
  destruct (bool_decide (chat_id ∈ _inited_chat s)); [reflexivity|].
  destruct (probe_or_create chat_id s) as [[[]|e] s']; reflexivity.
Qed.

(** C5. [_initChatIfNeeded] called twice in sequence: once the first call has
    returned, the chat is in [_inited_chat], and the second call returns at
    once, leaving the state, and with it the trace of transport calls, as it
    was; a first call for a chat that was not in the set did go to the
    transport, starting with the [getChat] probe. *)
Theorem initChat_second_call_is_noop chat_id s s1 :
  _initChatIfNeeded chat_id s = (Return tt, s1) ->
  chat_id ∈ _inited_chat s1
  /\ _initChatIfNeeded chat_id s1 = (Return tt, s1)
  /\ (chat_id ∉ _inited_chat s ->
      exists rest, calls s1 = calls s ++ Td.getChat chat_id :: rest).
Proof.
  rewrite initChat_unfold. intros Hfirst.
  assert (Hin : chat_id ∈ _inited_chat s1).
  { destruct (bool_decide (chat_id ∈ _inited_chat s)) eqn:Hmem.
    - injection Hfirst as <-. apply bool_decide_eq_true in Hmem. exact Hmem.
    - destruct (probe_or_create chat_id s) as [[u|e] s'];
        [|discriminate]. injection Hfirst as <-. simpl. set_solver. }
  split; [exact Hin|]. split.
  - rewrite initChat_unfold, bool_decide_eq_true_2 by exact Hin. reflexivity.
  - intros Hnot. rewrite bool_decide_eq_false_2 in Hfirst by exact Hnot.
    destruct (probe_or_create chat_id s) as [[u|e] s'] eqn:Hbody;
      [|discriminate].
    injection Hfirst as <-. simpl.
    eapply probe_or_create_calls, Hbody.
Qed.

Lemma create_chat_eq chat_id s :
  create_chat chat_id s =
    (run (descriptor_call chat_id);; run (creation_call chat_id);; mret tt) s.
Proof.
  unfold create_chat, descriptor_call, creation_call.
  destruct (chat_id <? - 10 ^ 12); [|destruct (chat_id <? 0)]; reflexivity.
Qed.

(** The ranges of [create_chat], as the comparisons of the source draw them:
    the supergroup branch is taken strictly below [-10^12]. *)
Lemma create_chat_ranges chat_id :
  (0 <= chat_id ->
   descriptor_call chat_id = Td.getUser chat_id
   /\ creation_call chat_id = Td.createPrivateChat chat_id false)
  /\ (chat_id < 0 -> Z.abs chat_id <= 10 ^ 12 ->
      descriptor_call chat_id = Td.getBasicGroup (Z.abs chat_id)
      /\ creation_call chat_id = Td.createBasicGroupChat (Z.abs chat_id) false)
  /\ (chat_id < 0 -> 10 ^ 12 < Z.abs chat_id ->
      descriptor_call chat_id = Td.getSupergroup (Z.abs chat_id - 10 ^ 12)
      /\ creation_call chat_id =
           Td.createSupergroupChat (Z.abs chat_id - 10 ^ 12) false).
Proof.
  unfold descriptor_call, creation_call.
  repeat split; intros;
    destruct (Z.ltb_spec chat_id (- 10 ^ 12));
    destruct (Z.ltb_spec chat_id 0); try reflexivity; lia.
Qed.

(** C6, as the code has it.  For a chat that is not in [_inited_chat] and
    whose probe is rejected, the kind-specific fallback runs.  When the
    descriptor fetch or the creation call is rejected with [e],
    [_initChatIfNeeded] throws that [e] and the chat stays out of
    [_inited_chat]; the next call for the chat starts over with the probe.
    When both resolve, the failure of the probe is not surfaced: the call
    returns, the chat is in [_inited_chat], and the trace has the probe and
    the two calls of the fallback. *)
Theorem initChat_failure_is_surfaced chat_id s e0 :
  chat_id ∉ _inited_chat s ->
  (transport (Td.getChat chat_id) (world s)).1 = Rejected e0 ->
  let w1 := (transport (Td.getChat chat_id) (world s)).2 in
  let fetched := transport (descriptor_call chat_id) w1 in
  let created := transport (creation_call chat_id) fetched.2 in
  (forall e,
     fetched.1 = Rejected e
     \/ ((exists v, fetched.1 = Resolved v) /\ created.1 = Rejected e) ->
     exists s1,
       _initChatIfNeeded chat_id s = (Throw e, s1)
       /\ (chat_id ∉ _inited_chat s1)
       /\ forall r s2, _initChatIfNeeded chat_id s1 = (r, s2) ->
            exists rest, calls s2 = calls s1 ++ Td.getChat chat_id :: rest)
  /\ (forall v v',
        fetched.1 = Resolved v -> created.1 = Resolved v' ->
        _initChatIfNeeded chat_id s
        = (Return tt,
           set_inited_chat ({[chat_id]} ∪ _inited_chat s)
             (set_world
                (calls s ++ [Td.getChat chat_id; descriptor_call chat_id;
                             creation_call chat_id])
                created.2 s))).
Proof.
  intros Hnot Hprobe w1 fetched created. subst created fetched w1. split.
  - intros e Hstep.
    assert (Hthrow : exists s1, probe_or_create chat_id s = (Throw e, s1)).
    { unfold probe_or_create. unfold_M. rewrite run_eq, Hprobe.
      rewrite create_chat_eq. unfold_M. rewrite run_eq. simpl in *.
      destruct Hstep as [Hd | [[v Hd] Hc]]; rewrite Hd; [eauto|].
      rewrite run_eq. simpl. rewrite Hc. eauto. }
    destruct Hthrow as [s1 Hbody]. exists s1.
    assert (Hout : chat_id ∉ _inited_chat s1).
    { rewrite (probe_or_create_inited _ _ _ _ Hbody). exact Hnot. }
    split; [|split; [exact Hout|]].
    + rewrite initChat_unfold, bool_decide_eq_false_2, Hbody by exact Hnot.
      reflexivity.
    + intros r s2.
      rewrite initChat_unfold, bool_decide_eq_false_2 by exact Hout.
      destruct (probe_or_create chat_id s1) as [[u|e1] s'] eqn:Hagain;
        intros [= ? <-]; simpl; eapply probe_or_create_calls, Hagain.
  - intros v v' Hd Hc.
    rewrite initChat_unfold, bool_decide_eq_false_2 by exact Hnot.
    unfold probe_or_create. unfold_M. rewrite run_eq, Hprobe.
    rewrite create_chat_eq. unfold_M. rewrite run_eq. simpl in *. rewrite Hd.
    rewrite run_eq. simpl. rewrite Hc.
    rewrite <- !app_assoc. reflexivity.
Qed.

End Initialisation.

(** ** Runs of the initialisation on the scripted platform *)

Lemma initChat_second_call_is_noop_witness :
  let P := Script.platform Script.calm [] in
  let s := Script.fresh Script.calm [] Script.plain in
  let s1 := (@_initChatIfNeeded P 7 s).2 in
  7 ∈ _inited_chat s1
  /\ @_initChatIfNeeded P 7 s1 = (Return tt, s1)
  /\ (7 ∉ _inited_chat s ->
      exists rest, calls s1 = calls s ++ Td.getChat 7 :: rest).
Proof.
  intros P s s1.
  apply (@initChat_second_call_is_noop P 7 s s1).
  vm_compute. reflexivity.
Defined.

(** C6, as the claim is worded: a rejected probe is a failed step, yet the
    call returns and the chat is recorded. *)
Lemma initChat_probe_failure_counterexample :
  let P := Script.platform Script.unknown_chat [] in
  let s := Script.fresh Script.unknown_chat [] Script.plain in
  (@transport P (Td.getChat 5) (world s)).1 = Rejected Script.rejection
  /\ (@_initChatIfNeeded P 5 s).1 = Return tt
  /\ 5 ∈ _inited_chat (@_initChatIfNeeded P 5 s).2.
Proof.
  split; [reflexivity|]. split; [reflexivity|].
  apply (bool_decide_unpack _). vm_compute. exact I.
Qed.

Lemma initChat_failure_is_surfaced_witness :
  (let P := Script.platform Script.unknown_user [] in
   let s := Script.fresh Script.unknown_user [] Script.plain in
   exists s1,
     @_initChatIfNeeded P 5 s = (Throw Script.rejection, s1)
     /\ (5 ∉ _inited_chat s1)
     /\ forall r s2, @_initChatIfNeeded P 5 s1 = (r, s2) ->
          exists rest, calls s2 = calls s1 ++ Td.getChat 5 :: rest)
  /\ (let P := Script.platform Script.unknown_chat [] in
      let s := Script.fresh Script.unknown_chat [] Script.plain in
      @_initChatIfNeeded P (-7) s
      = (Return tt,
         set_inited_chat ({[-7]} ∪ _inited_chat s)
           (@set_world P
              (calls s ++ [Td.getChat (-7); Td.getBasicGroup 7;
                           Td.createBasicGroupChat 7 false])
              (world s) s))).
Proof.
  split.
  - intros P s.
    refine (proj1 (@initChat_failure_is_surfaced P 5 s Script.rejection _ _)
              Script.rejection _).
    + apply (bool_decide_unpack _). vm_compute. exact I.
    + reflexivity.
    + left. reflexivity.
  - intros P s.
    refine (proj2 (@initChat_failure_is_surfaced P (-7) s Script.rejection
                     _ _) Td.ok Td.ok _ _).
    + apply (bool_decide_unpack _). vm_compute. exact I.
    + reflexivity.
    + reflexivity.
    + reflexivity.
Defined.

(** ** The send-waits *)

Section Waits.
Context `{Platform}.

Implicit Types (s : Bot) (p q : nat) (u : update) (r : send_result).

(** The listener never throws; what it leaves behind. *)
Lemma on_sendMsg_eq p r s :
  on_sendMsg p r s = (Return tt, (on_sendMsg p r s).2).
Proof. destruct r; reflexivity. Qed.

Lemma call_listeners_eq (ls : list nat) r s :
  call_listeners ls r s =
    (Return tt, foldl (fun b q => (on_sendMsg q r b).2) s ls).
Proof.
  revert s. induction ls as [|q ls IH]; intros s; [reflexivity|].
  simpl. unfold mbind, M_bind. rewrite on_sendMsg_eq. apply IH.
Qed.

Lemma emit_eq (name : string) r s :
  emit name r s =
    match _events s !! name with
    | None => (Return false, s)
    | Some ls =>
        (Return true,
         foldl (fun b q => (on_sendMsg q r b).2)
               (set_events (delete name (_events s)) s) ls)
    end.
Proof.
  unfold emit. unfold_M.
  destruct (_events s !! name) as [ls|]; [|reflexivity].
  rewrite call_listeners_eq. reflexivity.
Qed.

(** The payload and the event of an update agree with the handlers. *)
Lemma publish_eq u (name : string) s :
  update_event u = Some name ->
  publish u s =
    match _events s !! name with
    | None => (Return tt, s)
    | Some ls =>
        (Return tt,
         foldl (fun b q =>
                  (settle q (default (Broken (JsError "")) (update_settlement u))
                     b).2)
               (set_events (delete name (_events s)) s) ls)
    end.
Proof.
  destruct u as [m old|m old code msg|]; simpl; intros [= <-];
    unfold on_updateMessageSendSucceeded, on_updateMessageSendFailed;
    unfold mbind, M_bind; rewrite emit_eq;
    destruct (_events s !! _); reflexivity.
Qed.

(** C9. An update whose event has no listener goes through the delivery path
    without an exception and leaves the whole state as it was. *)
Theorem publish_without_wait_is_noop u (name : string) s :
  update_event u = Some name ->
  _events s !! name = None ->
  publish u s = (Return tt, s).
Proof.
  intros Hev Hnone. rewrite (publish_eq _ _ _ Hev), Hnone. reflexivity.
Qed.

(** One call of [rs] or [rj] of [q] leaves every other promise alone. *)
Lemma settle_other p q (o : settlement) s :
  q <> p ->
  let s' := (settle q o s).2 in
  promises s' !! p = promises s !! p
  /\ settled_times p s' = settled_times p s
  /\ _events s' = _events s
  /\ length (promises s') = length (promises s).
Proof.
  intros Hne. simpl. unfold settled_times. simpl.
  repeat split.
  - destruct (promises s !! q) as [[|]|]; try reflexivity.
    apply list_lookup_insert_ne. exact Hne.
  - rewrite List.filter_app, length_app. simpl.
    destruct (Nat.eqb_spec q p); [contradiction|]. simpl. lia.
  - destruct (promises s !! q) as [[|]|]; try reflexivity.
    apply length_insert.
Qed.

Lemma settle_all_other p (o : settlement) (ls : list nat) s :
  p ∉ ls ->
  let s' := foldl (fun b q => (settle q o b).2) s ls in
  promises s' !! p = promises s !! p
  /\ settled_times p s' = settled_times p s
  /\ _events s' = _events s
  /\ length (promises s') = length (promises s).
Proof.
  revert s. induction ls as [|q ls IH]; intros s Hnot; [simpl; auto|].
  apply not_elem_of_cons in Hnot as [Hne Hnot].
  specialize (IH (settle q o s).2 Hnot).
  destruct (settle_other p q o s (not_eq_sym Hne)) as (E1 & E2 & E3 & E4).
  cbn zeta in *. change (foldl ?f s (q :: ls)) with (foldl f (f s q) ls).
  destruct IH as (I1 & I2 & I3 & I4).
  rewrite I1, I2, I3, I4. auto.
Qed.

(** The call that settles a pending promise. *)
Lemma settle_pending p (o : settlement) s :
  promises s !! p = Some Pending ->
  let s' := (settle p o s).2 in
  promises s' !! p = Some (Settled o)
  /\ settled_times p s' = S (settled_times p s)
  /\ _events s' = _events s.
Proof.
  intros Hp. simpl. unfold settled_times. simpl. rewrite Hp.
  repeat split.
  - apply list_lookup_insert_eq. eapply lookup_lt_Some, Hp.
  - rewrite List.filter_app, length_app. simpl.
    rewrite Nat.eqb_refl. simpl. lia.
Qed.

Lemma wait_eq (chat_id message_id : Z) s :
  _waitMessageTillSent chat_id message_id s =
    (Return (length (promises s)),
     set_events
       (<[sendMsg_event chat_id message_id :=
            default [] (_events s !! sendMsg_event chat_id message_id)
              ++ [length (promises s)]]> (_events s))
       (set_promises (promises s ++ [Pending]) (settlements s) s)).
Proof. reflexivity. Qed.

Lemma registry_ok_no_settlement s :
  registry_ok s -> settled_times (length (promises s)) s = 0%nat.
Proof.
  intros [_ Hlog]. unfold settled_times.
  induction Hlog as [|e l He _ IH]; [reflexivity|].
  simpl. destruct (Nat.eqb_spec e.1 (length (promises s))); [lia|exact IH].
Qed.

Lemma registry_ok_not_listening s (name : string) :
  registry_ok s ->
  length (promises s) ∉ default [] (_events s !! name).
Proof.
  intros [Hev _] Hin.
  destruct (_events s !! name) as [ls|] eqn:Hls; simpl in Hin.
  - specialize (Hev _ _ Hls). rewrite Forall_forall in Hev.
    specialize (Hev _ Hin). lia.
  - inversion Hin.
Qed.

(** [registry_ok] holds of a new bot and is kept by the registration of a
    wait and by the delivery of an update. *)
Lemma registry_ok_constructor (bot_token : string) (options : BotOptions)
  (w : World) :
  registry_ok (constructor bot_token options w).
Proof. split; [apply map_Forall_empty|apply Forall_nil_2]. Qed.

Lemma registry_ok_wait (chat_id message_id : Z) s :
  registry_ok s -> registry_ok (_waitMessageTillSent chat_id message_id s).2.
Proof.
  intros [Hev Hlog]. rewrite wait_eq. split; simpl.
  - rewrite length_app. simpl. apply map_Forall_insert_2.
    + apply Forall_app. split.
      * destruct (_events s !! _) as [ls|] eqn:Hls; simpl; [|constructor].
        eapply Forall_impl; [apply (Hev _ _ Hls)|]. simpl. lia.
      * repeat constructor. lia.
    + eapply map_Forall_impl; [exact Hev|]. simpl. intros k ls Hls.
      eapply Forall_impl; [exact Hls|]. simpl. lia.
  - rewrite length_app. eapply Forall_impl; [exact Hlog|]. simpl. lia.
Qed.

Lemma registry_ok_settle q (o : settlement) s :
  (q < length (promises s))%nat ->
  registry_ok s -> registry_ok (settle q o s).2.
Proof.
  intros Hq [Hev Hlog].
  assert (Hlen : length (promises (settle q o s).2) = length (promises s)).
  { simpl. destruct (promises s !! q) as [[|]|]; try reflexivity.
    apply length_insert. }
  split.
  - eapply map_Forall_impl; [exact Hev|]. intros k ls Hls.
    eapply Forall_impl; [exact Hls|]. intros x Hx. rewrite Hlen. exact Hx.
  - change (settlements (settle q o s).2) with (settlements s ++ [(q, o)]).
    apply Forall_app. split.
    + eapply Forall_impl; [exact Hlog|]. intros x Hx. rewrite Hlen. exact Hx.
    + repeat constructor. rewrite Hlen. exact Hq.
Qed.

Lemma registry_ok_settle_all (o : settlement) (ls : list nat) s :
  Forall (fun q => (q < length (promises s))%nat) ls ->
  registry_ok s ->
  registry_ok (foldl (fun b q => (settle q o b).2) s ls).
Proof.
  revert s. induction ls as [|q ls IH]; intros s Hls Hok; [exact Hok|].
  inversion Hls as [|? ? Hq Hrest]; subst.
  assert (Hlen : length (promises (settle q o s).2) = length (promises s)).
  { simpl. destruct (promises s !! q) as [[|]|]; try reflexivity.
    apply length_insert. }
  apply (IH (settle q o s).2).
  - eapply Forall_impl; [exact Hrest|]. intros x Hx. rewrite Hlen. exact Hx.
  - apply registry_ok_settle; assumption.
Qed.

Lemma registry_ok_publish u s :
  registry_ok s -> registry_ok (publish u s).2.
Proof.
  intros Hok. destruct (update_event u) as [name|] eqn:Hu.
  - rewrite (publish_eq u name s Hu).
    destruct (_events s !! name) as [ls|] eqn:Hls; [|exact Hok]. simpl.
    destruct Hok as [Hev Hlog].
    apply registry_ok_settle_all; [apply (Hev _ _ Hls)|].
    split; [|exact Hlog]. simpl. apply map_Forall_delete. exact Hev.
  - destruct u; try discriminate. exact Hok.
Qed.

(** C1. A wait registered by [_waitMessageTillSent] is pending; the first
    update for its event settles its promise as the update says, by exactly
    one call of [rs] or [rj], and leaves no listener under the event; a
    second update for the same event changes nothing at all. *)
Theorem send_wait_settled_exactly_once (chat_id message_id : Z) s u u'
  (o : settlement) :
  registry_ok s ->
  update_event u = Some (sendMsg_event chat_id message_id) ->
  update_settlement u = Some o ->
  update_event u' = Some (sendMsg_event chat_id message_id) ->
  exists p s1 s2,
    _waitMessageTillSent chat_id message_id s = (Return p, s1)
    /\ promises s1 !! p = Some Pending
    /\ settled_times p s1 = 0%nat
    /\ (exists ls, _events s1 !! sendMsg_event chat_id message_id = Some ls
                   /\ p ∈ ls)
    /\ publish u s1 = (Return tt, s2)
    /\ promises s2 !! p = Some (Settled o)
    /\ settled_times p s2 = 1%nat
    /\ _events s2 !! sendMsg_event chat_id message_id = None
    /\ publish u' s2 = (Return tt, s2).
Proof.
  intros Hok Hu Ho Hu'.
  set (name := sendMsg_event chat_id message_id) in *.
  set (p := length (promises s)).
  set (ls0 := default [] (_events s !! name)).
  set (s1 := set_events (<[name := ls0 ++ [p]]> (_events s))
               (set_promises (promises s ++ [Pending]) (settlements s) s)).
  set (s1' := set_events (delete name (_events s1)) s1).
  set (mid := foldl (fun b q => (settle q o b).2) s1' ls0).
  set (s2 := (settle p o mid).2).
  assert (Hpend : promises s1 !! p = Some Pending).
  { simpl. apply list_lookup_middle. reflexivity. }
  assert (Hzero : settled_times p s1 = 0%nat).
  { apply (registry_ok_no_settlement s Hok). }
  assert (Hlook : _events s1 !! name = Some (ls0 ++ [p])).
  { simpl. apply lookup_insert_eq. }
  assert (Hfresh : p ∉ ls0) by apply (registry_ok_not_listening s name Hok).
  destruct (settle_all_other p o ls0 s1' Hfresh) as (M1 & M2 & M3 & _).
  fold mid in M1, M2, M3.
  assert (Hmid : promises mid !! p = Some Pending) by (rewrite M1; exact Hpend).
  destruct (settle_pending p o mid Hmid) as (F1 & F2 & F3). fold s2 in F1, F2, F3.
  assert (Hpub : publish u s1 = (Return tt, s2)).
  { rewrite (publish_eq u name s1 Hu), Hlook, Ho. simpl default.
    rewrite foldl_app. reflexivity. }
  assert (Hgone : _events s2 !! name = None).
  { rewrite F3, M3. simpl. apply lookup_delete_eq. }
  exists p, s1, s2. split; [apply wait_eq|].
  split; [exact Hpend|]. split; [exact Hzero|].
  split; [exists (ls0 ++ [p]); split; [exact Hlook|set_solver]|].
  split; [exact Hpub|]. split; [exact F1|].
  split; [rewrite F2, M2; change (settled_times p s1') with (settled_times p s1);
          rewrite Hzero; reflexivity|].
  split; [exact Hgone|].
  rewrite (publish_eq u' name s2 Hu'), Hgone. reflexivity.
Qed.

(** C3, as the code has it.  [_waitMessageTillSent] for an event that has
    listeners already does not throw: it returns a new pending promise and
    adds its listener behind those that are there. *)
Theorem second_wait_is_added (chat_id message_id : Z) s (ls : list nat) :
  _events s !! sendMsg_event chat_id message_id = Some ls ->
  exists p s1,
    _waitMessageTillSent chat_id message_id s = (Return p, s1)
    /\ promises s1 !! p = Some Pending
    /\ _events s1 !! sendMsg_event chat_id message_id = Some (ls ++ [p]).
Proof.
  intros Hls. eexists _, _. split; [apply wait_eq|]. split.
  - simpl. apply list_lookup_middle. reflexivity.
  - simpl. rewrite Hls. apply lookup_insert_eq.
Qed.

End Waits.

Lemma publish_without_wait_is_noop_witness :
  let P := Script.platform Script.calm [] in
  let s := Script.fresh Script.calm [] Script.plain in
  let m := {| Td.Message.id := 2097152; Td.Message.chat_id := 42;
              Td.Message.can_be_deleted_for_all_users := true |} in
  @publish P (updateMessageSendSucceeded m 7) s = (Return tt, s).
Proof.
  intros P s m.
  apply (@publish_without_wait_is_noop P (updateMessageSendSucceeded m 7)
           (sendMsg_event 42 7) s).
  - reflexivity.
  - vm_compute. reflexivity.
Defined.

Lemma send_wait_settled_exactly_once_witness :
  let P := Script.platform Script.calm [] in
  let s := Script.fresh Script.calm [] Script.plain in
  let m := {| Td.Message.id := 2097152; Td.Message.chat_id := 42;
              Td.Message.can_be_deleted_for_all_users := true |} in
  let u := updateMessageSendSucceeded m 7 in
  let u' := updateMessageSendFailed m 7 400 "Bad Request" in
  exists p s1 s2,
    @_waitMessageTillSent P 42 7 s = (Return p, s1)
    /\ promises s1 !! p = Some Pending
    /\ settled_times p s1 = 0%nat
    /\ (exists ls, _events s1 !! sendMsg_event 42 7 = Some ls /\ p ∈ ls)
    /\ @publish P u s1 = (Return tt, s2)
    /\ promises s2 !! p = Some (Settled (Fulfilled m))
    /\ settled_times p s2 = 1%nat
    /\ _events s2 !! sendMsg_event 42 7 = None
    /\ @publish P u' s2 = (Return tt, s2).
Proof.
  intros P s m u u'.
  apply (@send_wait_settled_exactly_once P 42 7 s u u' (Fulfilled m)).
  - split; [apply map_Forall_empty|apply Forall_nil_2].
  - reflexivity.
  - reflexivity.
  - reflexivity.
Defined.

(** C3, as the claim is worded: on a bot with a pending wait under the event
    of chat 42 and message 7, a second wait for the same event returns a
    promise instead of failing, and the two listeners stand side by side. *)
Lemma second_wait_counterexample :
  let P := Script.platform Script.calm [] in
  let s := Script.fresh Script.calm [] Script.plain in
  let s1 := (@_waitMessageTillSent P 42 7 s).2 in
  _events s1 !! sendMsg_event 42 7 = Some [0%nat]
  /\ promises s1 !! 0%nat = Some Pending
  /\ (@_waitMessageTillSent P 42 7 s1).1 = Return 1%nat
  /\ _events (@_waitMessageTillSent P 42 7 s1).2 !! sendMsg_event 42 7
     = Some [0%nat; 1%nat]
  /\ promises (@_waitMessageTillSent P 42 7 s1).2 = [Pending; Pending].
Proof. vm_compute. repeat split; reflexivity. Qed.

Lemma second_wait_is_added_witness :
  let P := Script.platform Script.calm [] in
  let s := (@_waitMessageTillSent P 42 7
              (Script.fresh Script.calm [] Script.plain)).2 in
  exists p s1,
    @_waitMessageTillSent P 42 7 s = (Return p, s1)
    /\ promises s1 !! p = Some Pending
    /\ _events s1 !! sendMsg_event 42 7 = Some ([0%nat] ++ [p]).
Proof.
  intros P s.
  apply (@second_wait_is_added P 42 7 s [0%nat]).
  vm_compute. reflexivity.
Defined.

(** ** The facade methods *)

Section Methods.
Context `{Platform}.

Implicit Types (s : Bot).

(** The methods that start with the readiness test reject at once, before
    any call. *)
Lemma deleteMessage_not_ready (chat_id : chat_ref)
  (message_ids : message_ids_arg) s :
  ready s = false ->
  deleteMessage chat_id message_ids s = (Throw (JsError "Not ready."), s).
Proof. intros Hr. unfold deleteMessage. unfold_M. rewrite Hr. reflexivity. Qed.

Lemma setChatDescription_not_ready (chat_id : chat_ref) (description : string)
  s :
  ready s = false ->
  setChatDescription chat_id description s = (Throw (JsError "Not ready."), s).
Proof.
  intros Hr. unfold setChatDescription. unfold_M. rewrite Hr. reflexivity.
Qed.

(** [answerCallbackQuery] has no readiness test: whatever [ready] is, its
    first step is the call to the transport. *)
Lemma answerCallbackQuery_calls (callback_query_id : query_arg)
  (options : options_arg) (arguments_2 : option bool) s :
  exists o,
    calls (answerCallbackQuery callback_query_id options arguments_2 s).2
    = calls s ++ [Td.answerCallbackQuery o].
Proof.
  unfold answerCallbackQuery. unfold_M. rewrite run_eq.
  eexists.
  match goal with
  | |- context [transport ?c ?w] => destruct (transport c w) as [[ret|e] w']
  end; simpl; [destruct (String.eqb _ _)|]; reflexivity.
Qed.

(** C10. Once the chat is resolved and initialised and the batch of messages
    is loaded, [deleteMessage] keeps the ids of the messages that are there
    and can be deleted for all users; with none it returns [true] in the
    state the load left, with more than 100 it throws in that state, and
    otherwise its one further call is [deleteMessages] for exactly those ids
    with [revoke] set, whose reply decides the result. *)
Theorem deleteMessage_deletes_the_deletable (chat_id : chat_ref)
  (message_ids : message_ids_arg) (c : Z) s s' s1 s2
  (messages : list (option Td.Message.t)) :
  ready s = true ->
  _checkChatId chat_id s = (Return c, s') ->
  _initChatIfNeeded c s' = (Return tt, s1) ->
  _loadMessageBatch c
    (map get_tdlib_message_id
       match message_ids with OneId id => [id] | IdArray ids => ids end) s1
  = (Return messages, s2) ->
  let to_be_deleted :=
    omap (fmap Td.Message.id) (List.filter deletable messages) in
  (forall id, id ∈ to_be_deleted <->
     exists m, Some m ∈ messages
               /\ Td.Message.can_be_deleted_for_all_users m = true
               /\ Td.Message.id m = id)
  /\ (to_be_deleted = [] ->
      deleteMessage chat_id message_ids s = (Return true, s2))
  /\ ((100 < length to_be_deleted)%nat ->
      deleteMessage chat_id message_ids s
      = (Throw (JsError "Too many messages."), s2))
  /\ (to_be_deleted <> [] -> (length to_be_deleted <= 100)%nat ->
      deleteMessage chat_id message_ids s
      = match run (Td.deleteMessages c to_be_deleted true) s2 with
        | (Return ret, s3) =>
            (if String.eqb (Td.at_type ret) "ok" then Return true
             else Throw (Thrown ret), s3)
        | (Throw e, s3) => (Throw e, s3)
        end
      /\ calls (deleteMessage chat_id message_ids s).2
         = calls s2 ++ [Td.deleteMessages c to_be_deleted true]).
Proof.
  intros Hready Hcheck Hinit Hload to_be_deleted.
  assert (Hbody : deleteMessage chat_id message_ids s =
    if Nat.eqb (length to_be_deleted) 0 then (Return true, s2)
    else if (100 <? length to_be_deleted)%nat
    then (Throw (JsError "Too many messages."), s2)
    else match run (Td.deleteMessages c to_be_deleted true) s2 with
         | (Return ret, s3) =>
             (if String.eqb (Td.at_type ret) "ok" then Return true
              else Throw (Thrown ret), s3)
         | (Throw e, s3) => (Throw e, s3)
         end).
  { unfold deleteMessage. unfold_M. rewrite Hready. simpl.
    rewrite Hcheck, Hinit, Hload. fold to_be_deleted.
    destruct (Nat.eqb (length to_be_deleted) 0); [reflexivity|].
    destruct (100 <? length to_be_deleted)%nat; [reflexivity|].
    destruct (run (Td.deleteMessages c to_be_deleted true) s2)
      as [[ret|e] s3]; [|reflexivity].
    destruct (String.eqb (Td.at_type ret) "ok"); reflexivity. }
  split; [|split; [|split]].
  - intros id. unfold to_be_deleted. rewrite list_elem_of_omap. split.
    + intros ([m|] & Hin & Hid); [|discriminate].
      apply list_elem_of_In, List.filter_In in Hin as [Hin Hdel].
      injection Hid as <-. exists m. rewrite list_elem_of_In. auto.
    + intros (m & Hin & Hdel & <-). exists (Some m). split; [|reflexivity].
      apply list_elem_of_In, List.filter_In.
      rewrite <- list_elem_of_In. auto.
  - intros Hnil. rewrite Hbody, Hnil. reflexivity.
  - intros Hmany. rewrite Hbody.
    destruct (Nat.eqb_spec (length to_be_deleted) 0); [lia|].
    destruct (Nat.ltb_spec 100 (length to_be_deleted)); [reflexivity|lia].
  - intros Hsome Hfew. rewrite Hbody.
    destruct (Nat.eqb_spec (length to_be_deleted) 0) as [Hz|_].
    { destruct to_be_deleted; [contradiction|discriminate]. }
    destruct (Nat.ltb_spec 100 (length to_be_deleted)); [lia|].
    split; [reflexivity|].
    rewrite run_eq.
    destruct (transport _ _) as [[ret|e] w]; reflexivity.
Qed.

End Methods.

(** C2 at the threshold.  With the probe rejected, [_initChatIfNeeded] takes
    the chat [-10^12] for the basic group [10^12]; [setChatDescription], which
    lets that same chat through as a supergroup, goes on to address the
    supergroup 0. *)
Theorem initChat_at_threshold :
  let P := Script.platform Script.unknown_chat [] in
  let s := Script.fresh Script.unknown_chat [] Script.plain in
  descriptor_call (- 10 ^ 12) = Td.getBasicGroup (10 ^ 12)
  /\ calls (@_initChatIfNeeded P (- 10 ^ 12) s).2
     = [Td.getChat (- 10 ^ 12); Td.getBasicGroup (10 ^ 12);
        Td.createBasicGroupChat (10 ^ 12) false]
  /\ calls (@setChatDescription P (ChatNumber (- 10 ^ 12)) "about"
              (set_ready true s)).2
     = [Td.getChat (- 10 ^ 12); Td.getBasicGroup (10 ^ 12);
        Td.createBasicGroupChat (10 ^ 12) false;
        Td.setSupergroupDescription 0 "about"].
Proof. vm_compute. repeat split; reflexivity. Qed.

(** C4 on [answerCallbackQuery]: on a bot that the constructor has just
    built, where [ready] is still false, the method does not reject; its call
    reaches the transport and it returns [true]. *)
Theorem answerCallbackQuery_before_ready :
  let P := Script.platform Script.calm [] in
  let s := Script.fresh Script.calm [] Script.plain in
  ready s = false
  /\ (@answerCallbackQuery P (QueryId "4242") (LegacyText "done")
        (Some true) s).1 = Return true
  /\ calls (@answerCallbackQuery P (QueryId "4242") (LegacyText "done")
              (Some true) s).2
     = [Td.answerCallbackQuery
          {| Td.callback_query_id := Some "4242"; Td.text := Some "done";
             Td.show_alert := Some true; Td.url := None;
             Td.cache_time := None |}]
  /\ @deleteMessage P (ChatNumber 42) (OneId 7) s
     = (Throw (JsError "Not ready."), s).
Proof. vm_compute. repeat split; reflexivity. Qed.

Lemma deleteMessage_deletes_the_deletable_witness :
  let m1 := {| Td.Message.id := 1048576; Td.Message.chat_id := 42;
               Td.Message.can_be_deleted_for_all_users := true |} in
  let m3 := {| Td.Message.id := 3145728; Td.Message.chat_id := 42;
               Td.Message.can_be_deleted_for_all_users := false |} in
  let messages := [Some m1; None; Some m3] in
  let P := Script.platform Script.calm messages in
  let s := set_ready true (Script.fresh Script.calm messages Script.plain) in
  calls (@deleteMessage P (ChatNumber 42) (IdArray [1; 2; 3]) s).2
  = [Td.getChat 42; Td.getMessages 42 [1048576; 2097152; 3145728];
     Td.deleteMessages 42 [1048576] true].
Proof.
  intros m1 m3 messages P s.
  refine (proj2 (proj2 (proj2 (proj2
            (@deleteMessage_deletes_the_deletable P (ChatNumber 42)
               (IdArray [1; 2; 3]) 42 s s
               (@_initChatIfNeeded P 42 s).2
               (@_loadMessageBatch P 42 [1048576; 2097152; 3145728]
                  (@_initChatIfNeeded P 42 s).2).2
               messages eq_refl eq_refl eq_refl eq_refl))) _ _)).
  - discriminate.
  - vm_compute. lia.
Defined.

(** ** The username cache *)

Section Cache.
Context `{Platform}.

Implicit Types (s : Bot) (h : string).

(** C7. With an entry for the handle [h] stored at time [T], and the
    period [Δ]: a resolution whose clock reading is before [T + Δ] returns
    the cached id and only reads the clock; a resolution at or after [T + Δ]
    hands [searchPublicChat] to the transport, and when that resolves with a
    chat, returns its id and puts the chat, stamped with the next clock
    reading, in the place of the old entry. *)
Theorem username_cache_window h s (entry : cache_entry) :
  username_match h = Some h ->
  _username_cache s !! h = Some entry ->
  let t := (Date_now (world s)).1 in
  let s0 := set_world (calls s) (Date_now (world s)).2 s in
  (t < timestamp entry + _username_cache_period s ->
   _checkChatId (ChatString h) s = (Return (Td.Chat.id (data entry)), s0))
  /\ (timestamp entry + _username_cache_period s <= t ->
      calls (_checkChatId (ChatString h) s).2
      = calls s ++ [Td.searchPublicChat h]
      /\ forall (chat : Td.Chat.t) w1,
          transport (Td.searchPublicChat h) (world s0)
          = (Resolved (Some chat), w1) ->
          exists s2,
            _checkChatId (ChatString h) s = (Return (Td.Chat.id chat), s2)
            /\ _username_cache s2
               = <[h := {| data := chat; timestamp := (Date_now w1).1 |}]>
                   (_username_cache s)
            /\ size (_username_cache s2) = size (_username_cache s)).
Proof.
  intros Hmatch Hentry t s0.
  unfold _checkChatId, cached_id. unfold_M. rewrite Hmatch. simpl.
  rewrite Hentry. unfold now.
  subst t s0. destruct (Date_now (world s)) as [t w0]. simpl.
  split.
  - intros Hlive. rewrite bool_decide_eq_true_2 by lia. reflexivity.
  - intros Hstale. rewrite bool_decide_eq_false_2 by lia.
    rewrite run_eq. simpl.
    split.
    + destruct (transport (Td.searchPublicChat h) w0) as [[[chat|]|e] w1];
        simpl.
      * destruct (Date_now w1); reflexivity.
      * reflexivity.
      * destruct (exn_message e) as [m|]; [|reflexivity].
        destruct (contains _ m); reflexivity.
    + intros chat w1 Hfound. rewrite Hfound. simpl.
      destruct (Date_now w1) as [t1 w2]. simpl.
      eexists. split; [reflexivity|]. simpl. split; [reflexivity|].
      apply map_size_insert_Some. rewrite Hentry. eexists. reflexivity.
Qed.

End Cache.

Lemma username_cache_window_witness :
  let P := Script.platform Script.calm [] in
  let s := (@_checkChatId P (ChatString "@durov")
              (Script.fresh Script.calm [] Script.plain)).2 in
  @_checkChatId P (ChatString "@durov") s
  = (Return 77, @set_world P (calls s) (2000, 0%N) s).
Proof.
  intros P s.
  refine (proj1 (@username_cache_window P "@durov" s
                   {| data := {| Td.Chat.id := 77 |}; timestamp := 0 |}
                   eq_refl eq_refl) _).
  vm_compute. reflexivity.
Defined.

(** ** Base-64 and the stream cipher *)

Section Codec.

Import Buffer.

Lemma byte_of_to_N (x : byte) : byte_of_N (Byte.to_N x) = x.
Proof. unfold byte_of_N. rewrite Byte.of_to_N. reflexivity. Qed.

Lemma byte_of_N_eq (x : byte) (n : N) : n = Byte.to_N x -> byte_of_N n = x.
Proof. intros ->. apply byte_of_to_N. Qed.

Lemma xor_bits_cancel k x : xor_bits k (xor_bits k x) = x.
Proof.
  destruct k as (k0 & k1 & k2 & k3 & k4 & k5 & k6 & k7).
  destruct x as (x0 & x1 & x2 & x3 & x4 & x5 & x6 & x7).
  unfold xor_bits. rewrite <- !xorb_assoc, !xorb_nilpotent, !xorb_false_l.
  reflexivity.
Qed.

Lemma byte_xor_cancel (k x : byte) : byte_xor k (byte_xor k x) = x.
Proof.
  unfold byte_xor. rewrite Byte.to_bits_of_bits, xor_bits_cancel.
  apply Byte.of_bits_to_bits.
Qed.

(** Decryption undoes encryption from the same register, whatever the block
    transform is. *)
Lemma cfb_decrypt_encrypt (E : list byte -> list byte) (st : Cfb.state)
  (input : list byte) :
  Cfb.decrypt E st (Cfb.encrypt E st input) = input.
Proof.
  revert st. induction input as [|x rest IH]; intros st; [reflexivity|].
  simpl. rewrite byte_xor_cancel, IH. reflexivity.
Qed.

Lemma digit_value_char (n : N) :
  (n < 64)%N -> digit_value (digit_char n) = Some n.
Proof.
  intros Hn.
  assert (Hall : forallb
            (fun k => match digit_value (digit_char (N.of_nat k)) with
                      | Some m => N.eqb m (N.of_nat k)
                      | None => false
                      end) (seq 0 64) = true) by (vm_compute; reflexivity).
  rewrite forallb_forall in Hall.
  specialize (Hall (N.to_nat n)). rewrite N2Nat.id in Hall.
  destruct (digit_value (digit_char n)) as [m|].
  - f_equal. apply N.eqb_eq, Hall, in_seq. lia.
  - discriminate Hall. apply in_seq. lia.
Qed.

Lemma sextets_bounded (bs : list byte) :
  Forall (fun n => (n < 64)%N) (sextets bs).
Proof.
  assert (Hlen : forall n bs, (length bs <= n)%nat ->
                 Forall (fun n => (n < 64)%N) (sextets bs)).
  { clear bs. induction n as [|n IH]; intros bs Hle.
    - destruct bs; [constructor|simpl in Hle; lia].
    - destruct bs as [|a [|b [|c rest]]]; [constructor| | |].
      + pose proof (Byte.to_N_bounded a).
        change (sextets [a]) with
          [Byte.to_N a / 4; (Byte.to_N a mod 4) * 16]%N.
        repeat constructor; zify; Z.to_euclidean_division_equations; lia.
      + pose proof (Byte.to_N_bounded a). pose proof (Byte.to_N_bounded b).
        change (sextets [a; b]) with
          [Byte.to_N a / 4; (Byte.to_N a mod 4) * 16 + Byte.to_N b / 16;
           (Byte.to_N b mod 16) * 4]%N.
        repeat constructor; zify; Z.to_euclidean_division_equations; lia.
      + pose proof (Byte.to_N_bounded a). pose proof (Byte.to_N_bounded b).
        pose proof (Byte.to_N_bounded c).
        change (sextets (a :: b :: c :: rest)) with
          (Byte.to_N a / 4 :: (Byte.to_N a mod 4) * 16 + Byte.to_N b / 16
             :: (Byte.to_N b mod 16) * 4 + Byte.to_N c / 64
             :: Byte.to_N c mod 64 :: sextets rest)%N.
        repeat (constructor;
                [zify; Z.to_euclidean_division_equations; lia|]).
        apply IH. simpl in Hle. lia. }
  apply (Hlen (length bs)). lia.
Qed.

Lemma octets_sextets (bs : list byte) : octets (sextets bs) = bs.
Proof.
  assert (Hlen : forall n bs, (length bs <= n)%nat -> octets (sextets bs) = bs).
  { clear bs. induction n as [|n IH]; intros bs Hle.
    - destruct bs; [reflexivity|simpl in Hle; lia].
    - destruct bs as [|a [|b [|c rest]]]; [reflexivity| | |].
      + pose proof (Byte.to_N_bounded a).
        change (octets (sextets [a])) with
          [byte_of_N (Byte.to_N a / 4 * 4 + (Byte.to_N a mod 4) * 16 / 16)]%N.
        rewrite (byte_of_N_eq a)
          by (zify; Z.to_euclidean_division_equations; lia).
        reflexivity.
      + pose proof (Byte.to_N_bounded a). pose proof (Byte.to_N_bounded b).
        change (octets (sextets [a; b])) with
          [byte_of_N (Byte.to_N a / 4 * 4
                      + ((Byte.to_N a mod 4) * 16 + Byte.to_N b / 16) / 16);
           byte_of_N (((Byte.to_N a mod 4) * 16 + Byte.to_N b / 16) mod 16 * 16
                      + (Byte.to_N b mod 16) * 4 / 4)]%N.
        rewrite (byte_of_N_eq a)
          by (zify; Z.to_euclidean_division_equations; lia).
        rewrite (byte_of_N_eq b)
          by (zify; Z.to_euclidean_division_equations; lia).
        reflexivity.
      + pose proof (Byte.to_N_bounded a). pose proof (Byte.to_N_bounded b).
        pose proof (Byte.to_N_bounded c).
        change (octets (sextets (a :: b :: c :: rest))) with
          (byte_of_N (Byte.to_N a / 4 * 4
                      + ((Byte.to_N a mod 4) * 16 + Byte.to_N b / 16) / 16)
           :: byte_of_N (((Byte.to_N a mod 4) * 16 + Byte.to_N b / 16) mod 16 * 16
                         + ((Byte.to_N b mod 16) * 4 + Byte.to_N c / 64) / 4)
           :: byte_of_N (((Byte.to_N b mod 16) * 4 + Byte.to_N c / 64) mod 4 * 64
                         + Byte.to_N c mod 64)
           :: octets (sextets rest))%N.
        rewrite IH by (simpl in Hle; lia).
        rewrite (byte_of_N_eq a)
          by (zify; Z.to_euclidean_division_equations; lia).
        rewrite (byte_of_N_eq b)
          by (zify; Z.to_euclidean_division_equations; lia).
        rewrite (byte_of_N_eq c)
          by (zify; Z.to_euclidean_division_equations; lia).
        reflexivity. }
  apply (Hlen (length bs)). lia.
Qed.

Lemma digits_of_chars (ss : list N) :
  Forall (fun n => (n < 64)%N) ss ->
  omap digit_value (map digit_char ss) = ss.
Proof.
  induction 1 as [|n ss Hn _ IH]; [reflexivity|].
  cbn [map omap list_omap]. rewrite (digit_value_char n Hn), IH. reflexivity.
Qed.

Lemma digit_char_no_padding (n : N) :
  (n < 64)%N -> Ascii.eqb (digit_char n) "=" = false.
Proof.
  intros Hn.
  assert (Hall : forallb
            (fun k => negb (Ascii.eqb (digit_char (N.of_nat k)) "="))
            (seq 0 64) = true) by (vm_compute; reflexivity).
  rewrite forallb_forall in Hall.
  specialize (Hall (N.to_nat n)). rewrite N2Nat.id in Hall.
  apply negb_true_iff, Hall, in_seq. lia.
Qed.

(** The decoder stops where the padding of an encoded text starts. *)
Lemma until_padding_encoded (ss : list N) (len : nat) :
  Forall (fun n => (n < 64)%N) ss ->
  until_padding (map digit_char ss ++ padding len) = map digit_char ss.
Proof.
  induction 1 as [|n ss Hn _ IH].
  - unfold padding. destruct (len mod 3)%nat as [|[|[|k]]]; reflexivity.
  - cbn [map app until_padding].
    rewrite (digit_char_no_padding n Hn), IH. reflexivity.
Qed.

(** [Buffer.from(buf.toString('base64'), 'base64')] is [buf]. *)
Lemma from_to_base64 (bs : list byte) : from_base64 (to_base64 bs) = bs.
Proof.
  unfold from_base64, to_base64.
  rewrite list_ascii_of_string_of_list_ascii.
  rewrite until_padding_encoded by apply sextets_bounded.
  rewrite digits_of_chars by apply sextets_bounded.
  apply octets_sextets.
Qed.

End Codec.

(** The codec on the test vectors of RFC 4648, and an event name. *)
Example base64_vectors :
  Buffer.to_base64 (Buffer.from_utf8 "f") = "Zg=="
  /\ Buffer.to_base64 (Buffer.from_utf8 "fo") = "Zm8="
  /\ Buffer.to_base64 (Buffer.from_utf8 "foo") = "Zm9v"
  /\ Buffer.to_base64 (Buffer.from_utf8 "foobar") = "Zm9vYmFy"
  /\ Buffer.to_utf8 (Buffer.from_base64 "Zm9vYmE=") = "fooba".
Proof. repeat split; reflexivity. Qed.

(** The decoder on texts that no encoder gives: it stops at the first [=],
    passes over what is no digit, and reads the URL-safe digits. *)
Example base64_decoder_edges :
  length (Buffer.from_base64 "AAAA=AAAAAAAAAAAAAAAAAAAAAAA") = 3%nat
  /\ Buffer.to_utf8 (Buffer.from_base64 "Zm9v=YmFy") = "foo"
  /\ Buffer.to_utf8 (Buffer.from_base64 "Zm 9v.YmFy") = "foobar"
  /\ Buffer.from_base64 "-_8" = Buffer.from_base64 "+/8"
  /\ Buffer.from_base64 "Z" = []
  /\ Buffer.to_utf8 (Buffer.from_base64 "Zg") = "f".
Proof. repeat split; reflexivity. Qed.

Example sendMsg_event_name :
  sendMsg_event (-1001234567890) 1048576 = "_sendMsg:-1001234567890:1048576".
Proof. reflexivity. Qed.

Example username_match_cases :
  username_match "@durov" = Some "@durov"
  /\ username_match "tdlib_chat" = Some "tdlib_chat"
  /\ username_match "@" = None
  /\ username_match "two words" = None.
Proof. repeat split; reflexivity. Qed.

(** ** The callback payloads *)

Section Payload.
Context `{Platform}.

Implicit Types (s : Bot) (p : string) (key iv : list byte).

(** The token of a payload under a given IV. *)
Lemma encrypt_callback_data_eq p key s :
  _encrypt_callback_query s = Some key ->
  (length (Buffer.from_utf8 p) <= 48)%nat ->
  (encrypt_callback_data p s).1
  = Return (Buffer.to_base64
              ((randomBytes 16 (world s)).1
                 ++ Cfb.encrypt (aes256_encrypt_block key)
                      (Cfb.start (randomBytes 16 (world s)).1)
                      (Buffer.from_utf8 p))).
Proof.
  intros Hkey Hlen. unfold encrypt_callback_data. unfold_M. rewrite Hkey.
  destruct (Nat.ltb_spec 48 (length (Buffer.from_utf8 p))); [lia|].
  unfold random. destruct (randomBytes 16 (world s)). reflexivity.
Qed.

Lemma decrypt_token key iv (ct : list byte) s :
  _encrypt_callback_query s = Some key ->
  length iv = 16%nat ->
  decrypt_callback_data (Buffer.to_base64 (iv ++ ct)) s
  = (Return (Some (Buffer.to_utf8
                     (Cfb.decrypt (aes256_encrypt_block key) (Cfb.start iv)
                        ct))), s).
Proof.
  intros Hkey Hiv. unfold decrypt_callback_data. unfold_M. rewrite Hkey.
  rewrite from_to_base64.
  rewrite (take_app_length' iv ct 16), (drop_app_length' iv ct 16)
    by (symmetry; exact Hiv).
  rewrite Hiv. reflexivity.
Qed.

(** C8. With encryption enabled and a payload of at most 48 octets: the
    token is the base-64 text of the drawn IV followed by the ciphertext; the
    IV has 16 octets and is the first 16 octets of the decoded token;
    decrypting the token gives the payload back; and an encryption that draws
    another IV gives another token. *)
Theorem callback_data_roundtrip p key s :
  _encrypt_callback_query s = Some key ->
  (length (Buffer.from_utf8 p) <= 48)%nat ->
  let iv := (randomBytes 16 (world s)).1 in
  let token :=
    Buffer.to_base64
      (iv ++ Cfb.encrypt (aes256_encrypt_block key) (Cfb.start iv)
               (Buffer.from_utf8 p)) in
  (encrypt_callback_data p s).1 = Return token
  /\ length iv = 16%nat
  /\ take 16 (Buffer.from_base64 token) = iv
  /\ (forall s', _encrypt_callback_query s' = Some key ->
        decrypt_callback_data token s' = (Return (Some p), s'))
  /\ (forall s', _encrypt_callback_query s' = Some key ->
        (randomBytes 16 (world s')).1 <> iv ->
        exists token',
          (encrypt_callback_data p s').1 = Return token'
          /\ token' <> token
          /\ decrypt_callback_data token' s' = (Return (Some p), s')).
Proof.
  intros Hkey Hlen iv token.
  assert (Hiv : length iv = 16%nat) by apply randomBytes_length.
  split; [apply (encrypt_callback_data_eq p key s Hkey Hlen)|].
  split; [exact Hiv|]. split.
  { unfold token. rewrite from_to_base64.
    apply take_app_length'. symmetry. exact Hiv. }
  split.
  - intros s' Hkey'. unfold token.
    rewrite (decrypt_token key iv _ s' Hkey' Hiv), cfb_decrypt_encrypt.
    unfold Buffer.to_utf8, Buffer.from_utf8.
    rewrite string_of_list_byte_of_string. reflexivity.
  - intros s' Hkey' Hfresh.
    set (iv' := (randomBytes 16 (world s')).1) in *.
    assert (Hiv' : length iv' = 16%nat) by apply randomBytes_length.
    eexists. split; [apply (encrypt_callback_data_eq p key s' Hkey' Hlen)|].
    fold iv'. split.
    + intros Heq. apply Hfresh. unfold token in Heq.
      apply (f_equal Buffer.from_base64) in Heq.
      rewrite !from_to_base64 in Heq.
      apply (f_equal (take 16)) in Heq.
      rewrite !take_app_length' in Heq by (symmetry; assumption).
      exact Heq.
    + rewrite (decrypt_token key iv' _ s' Hkey' Hiv'), cfb_decrypt_encrypt.
      unfold Buffer.to_utf8, Buffer.from_utf8.
      rewrite string_of_list_byte_of_string. reflexivity.
Qed.

End Payload.

Lemma callback_data_roundtrip_witness :
  let P := Script.platform Script.calm [] in
  let s := Script.fresh Script.calm [] Script.encrypting in
  let key := @scryptSync P "42:token" in
  let iv := (@randomBytes P 16 (world s)).1 in
  let token :=
    Buffer.to_base64
      (iv ++ Cfb.encrypt (@aes256_encrypt_block P key) (Cfb.start iv)
               (Buffer.from_utf8 "vote:yes")) in
  (@encrypt_callback_data P "vote:yes" s).1 = Return token
  /\ length iv = 16%nat
  /\ take 16 (Buffer.from_base64 token) = iv
  /\ (forall s', _encrypt_callback_query s' = Some key ->
        @decrypt_callback_data P token s' = (Return (Some "vote:yes"), s'))
  /\ (forall s', _encrypt_callback_query s' = Some key ->
        (@randomBytes P 16 (world s')).1 <> iv ->
        exists token',
          (@encrypt_callback_data P "vote:yes" s').1 = Return token'
          /\ token' <> token
          /\ @decrypt_callback_data P token' s' = (Return (Some "vote:yes"), s')).
Proof.
  intros P s key iv token.
  apply (@callback_data_roundtrip P "vote:yes" key s).
  - reflexivity.
  - vm_compute. lia.
Defined.

(** * Further properties of the code *)

(** ** [_checkChatId] *)

(** [isNaN] on strings that are numbers, which [_checkChatId] hands to
    [parseInt], and on strings that are not. *)
Example isNaN_cases :
  map Js.isNaN
    ["-5"; "1.5"; ""; "-1001234567890"; "123"; "Infinity"; " 12 "; "0x1F";
     "1e3"; ".5"; "5."]
  = [false; false; false; false; false; false; false; false; false; false;
     false]
  /\ map Js.isNaN
       ["@durov"; "tdlib_chat"; "two words"; "12px"; "1e"; "0x"; "--5"; ".";
        "-0x10"; "1 2"]
     = [true; true; true; true; true; true; true; true; true; true].
Proof. split; reflexivity. Qed.

Section Resolution.
Context `{Platform}.

Implicit Types (s : Bot) (h : string).

(** X1. A string that is no number ([isNaN] is true of it) and no username
    (the pattern does not match) is rejected as not resolvable, without a
    look at the clock or a call to the transport: the state is as it was. *)
Theorem checkChatId_rejects_malformed_handle h s :
  Js.isNaN h = true ->
  username_match h = None ->
  _checkChatId (ChatString h) s
  = (Throw (JsError ("cannot resolve name: " +:+ h)), s).
Proof.
  intros _ Hno. unfold _checkChatId. unfold_M. rewrite Hno. reflexivity.
Qed.

(** X2. A lookup that fails for a handle without a cache entry: a rejection
    whose message mentions [Too Many Requests] is thrown on as it is, any
    other rejection with a message, and a lookup that resolves with nothing,
    become [cannot resolve name: h]; the one call is in the trace and the
    cache is as it was. *)
Theorem checkChatId_lookup_failure h s :
  username_match h = Some h ->
  _username_cache s !! h = None ->
  let after w := set_world (calls s ++ [Td.searchPublicChat h]) w s in
  (forall e m w,
     transport (Td.searchPublicChat h) (world s) = (Rejected e, w) ->
     exn_message e = Some m ->
     _checkChatId (ChatString h) s
     = (Throw (if contains "Too Many Requests" m then e
               else JsError ("cannot resolve name: " +:+ h)), after w))
  /\ (forall w,
        transport (Td.searchPublicChat h) (world s) = (Resolved None, w) ->
        _checkChatId (ChatString h) s
        = (Throw (JsError ("cannot resolve name: " +:+ h)), after w))
  /\ (forall w, _username_cache (after w) = _username_cache s).
Proof.
  intros Hmatch Hmiss after. split; [|split]; [| |reflexivity].
  - intros e m w Hrej Hm.
    unfold _checkChatId, cached_id. unfold_M. rewrite Hmatch. simpl.
    rewrite Hmiss, run_eq, Hrej. simpl. rewrite Hm.
    destruct (contains _ m); reflexivity.
  - intros w Hnone.
    unfold _checkChatId, cached_id. unfold_M. rewrite Hmatch. simpl.
    rewrite Hmiss, run_eq, Hnone. reflexivity.
Qed.

(** What one resolution can change. *)
Lemma checkChatId_effect (chat_id : chat_ref) s :
  let s' := (_checkChatId chat_id s).2 in
  _inited_chat s' = _inited_chat s
  /\ _events s' = _events s
  /\ promises s' = promises s
  /\ settlements s' = settlements s
  /\ ready s' = ready s
  /\ _encrypt_callback_query s' = _encrypt_callback_query s
  /\ _username_cache_period s' = _username_cache_period s
  /\ (forall k, ChatString k <> chat_id ->
        _username_cache s' !! k = _username_cache s !! k)
  /\ (forall k, is_Some (_username_cache s !! k) ->
        is_Some (_username_cache s' !! k))
  /\ (calls s' = calls s
      \/ exists h, chat_id = ChatString h
                   /\ calls s' = calls s ++ [Td.searchPublicChat h]).
Proof.
  destruct chat_id as [n|h|shown];
    [simpl; repeat split; auto| |simpl; repeat split; auto].
  unfold _checkChatId, cached_id. unfold_M.
  destruct (username_match h) as [name|] eqn:Hmatch;
    [|simpl; repeat split; auto].
  assert (name = h) as ->.
  { unfold username_match in Hmatch.
    destruct (match list_ascii_of_string h with
              | "@"%char :: r => r | _ => list_ascii_of_string h end);
      [discriminate|].
    destruct (forallb _ _); congruence. }
  unfold run, now.
  repeat (simpl; case_match); simplify_eq/=;
    repeat split; auto;
    try (intros k Hk;
         solve [ apply lookup_insert_ne; congruence
               | destruct (decide (h = k)) as [->|Hne];
                 [rewrite lookup_insert_eq; eauto
                 |rewrite lookup_insert_ne by exact Hne; exact Hk] ]);
    try (right; eauto).
Qed.

End Resolution.

Section ResolutionTwice.
Context `{Platform}.

Implicit Types (s : Bot) (h : string).

(** X3. Whatever is resolved and however it ends, a resolution never drops
    an entry of the username cache, leaves the entries of all other handles
    as they are, and hands at most one operation to the transport, the
    [searchPublicChat] of the handle. *)
Theorem checkChatId_touches_one_entry (chat_id : chat_ref) s :
  let s' := (_checkChatId chat_id s).2 in
  (forall k, is_Some (_username_cache s !! k) ->
     is_Some (_username_cache s' !! k))
  /\ (forall k, ChatString k <> chat_id ->
        _username_cache s' !! k = _username_cache s !! k)
  /\ (calls s' = calls s
      \/ exists h, chat_id = ChatString h
                   /\ calls s' = calls s ++ [Td.searchPublicChat h]).
Proof.
  destruct (checkChatId_effect chat_id s)
    as (_ & _ & _ & _ & _ & _ & _ & Hother & Hkeep & Hcalls).
  auto.
Qed.

(** X4. Two resolutions of a handle in a row, the first on an empty entry:
    when the lookup resolves with a chat and the clock of the second
    resolution reads less than the stored time plus the period, both return
    the id of the chat and the two together have made the one lookup. *)
Theorem checkChatId_twice_one_lookup h s (chat : Td.Chat.t) w1 :
  username_match h = Some h ->
  _username_cache s !! h = None ->
  transport (Td.searchPublicChat h) (world s) = (Resolved (Some chat), w1) ->
  let s1 := (_checkChatId (ChatString h) s).2 in
  (Date_now (world s1)).1 < (Date_now w1).1 + _username_cache_period s ->
  (_checkChatId (ChatString h) s).1 = Return (Td.Chat.id chat)
  /\ (_checkChatId (ChatString h) s1).1 = Return (Td.Chat.id chat)
  /\ calls (_checkChatId (ChatString h) s1).2
     = calls s ++ [Td.searchPublicChat h].
Proof.
  intros Hmatch Hmiss Hfound s1.
  assert (Hfirst : _checkChatId (ChatString h) s
    = (Return (Td.Chat.id chat),
       set_username_cache
         (<[h := {| data := chat; timestamp := (Date_now w1).1 |}]>
            (_username_cache s))
         (set_world (calls s ++ [Td.searchPublicChat h]) (Date_now w1).2 s))).
  { unfold _checkChatId, cached_id. unfold_M. rewrite Hmatch. simpl.
    rewrite Hmiss, run_eq, Hfound. simpl. unfold now. simpl.
    destruct (Date_now w1). reflexivity. }
  subst s1. rewrite Hfirst. simpl. intros Hclock.
  split; [reflexivity|].
  unfold _checkChatId, cached_id. unfold_M. rewrite Hmatch. simpl.
  rewrite lookup_insert_eq. unfold now. simpl.
  destruct (Date_now (Date_now w1).2) as [t w3]. simpl in *.
  rewrite bool_decide_eq_true_2 by lia. split; reflexivity.
Qed.

End ResolutionTwice.

Lemma checkChatId_rejects_malformed_handle_witness :
  let P := Script.platform Script.calm [] in
  let s := Script.fresh Script.calm [] Script.plain in
  @_checkChatId P (ChatString "two words") s
  = (Throw (JsError "cannot resolve name: two words"), s).
Proof.
  intros P s.
  apply (@checkChatId_rejects_malformed_handle P "two words" s).
  - reflexivity.
  - reflexivity.
Defined.

Lemma checkChatId_lookup_failure_witness :
  let fails c :=
    match c with Td.searchPublicChat _ => true | _ => false end in
  let P := Script.platform fails [] in
  let s := Script.fresh fails [] Script.plain in
  @_checkChatId P (ChatString "@nobody") s
  = (Throw (JsError "cannot resolve name: @nobody"),
     @set_world P [Td.searchPublicChat "@nobody"] (0, 0%N) s).
Proof.
  intros fails P s.
  refine (proj1 (@checkChatId_lookup_failure P "@nobody" s eq_refl eq_refl)
            Script.rejection "Bad Request" (0, 0%N) eq_refl eq_refl).
Defined.

Lemma checkChatId_twice_one_lookup_witness :
  let P := Script.platform Script.calm [] in
  let s := Script.fresh Script.calm [] Script.plain in
  let s1 := (@_checkChatId P (ChatString "@durov") s).2 in
  (@_checkChatId P (ChatString "@durov") s).1 = Return 77
  /\ (@_checkChatId P (ChatString "@durov") s1).1 = Return 77
  /\ calls (@_checkChatId P (ChatString "@durov") s1).2
     = calls s ++ [Td.searchPublicChat "@durov"].
Proof.
  intros P s s1.
  refine (@checkChatId_twice_one_lookup P "@durov" s {| Td.Chat.id := 77 |}
            (0, 0%N) eq_refl eq_refl eq_refl _).
  vm_compute. reflexivity.
Defined.

(** ** [_initChatIfNeeded] and the methods built on it *)

Section Preparation.
Context `{Platform}.

Implicit Types (s : Bot) (chat_id : Z).

Lemma prepares_within_limit chat_id (c : Td.call) :
  prepares chat_id c -> within_limit c.
Proof.
  unfold prepares, descriptor_call, creation_call.
  intros [Hc|[Hc|Hc]]; subst c; simpl; try exact I;
    destruct (chat_id <? - 10 ^ 12), (chat_id <? 0); exact I.
Qed.

(** What one initialisation can change. *)
Lemma initChat_effect chat_id s :
  let s' := (_initChatIfNeeded chat_id s).2 in
  _username_cache s' = _username_cache s
  /\ _events s' = _events s
  /\ promises s' = promises s
  /\ settlements s' = settlements s
  /\ ready s' = ready s
  /\ _encrypt_callback_query s' = _encrypt_callback_query s
  /\ (_inited_chat s' = _inited_chat s
      \/ _inited_chat s' = {[chat_id]} ∪ _inited_chat s)
  /\ exists new, calls s' = calls s ++ new
                 /\ (length new <= 3)%nat
                 /\ Forall (prepares chat_id) new.
Proof.
  cbv zeta. rewrite initChat_unfold.
  destruct (bool_decide (chat_id ∈ _inited_chat s)).
  { simpl. split_and!; auto. exists []. rewrite app_nil_r. simpl. split_and!; auto; lia. }
  unfold probe_or_create. unfold_M. rewrite run_eq.
  destruct (transport (Td.getChat chat_id) (world s)) as [[v|e] w]; simpl.
  { split_and!; auto. exists [Td.getChat chat_id]. simpl.
    split_and!; auto; try lia.
    repeat first [apply Forall_nil_2
                 |apply Forall_cons_2; [unfold prepares; auto|]]. }
  rewrite create_chat_eq. unfold_M. rewrite run_eq. simpl.
  destruct (transport (descriptor_call chat_id) w) as [[v|e'] w']; simpl.
  - rewrite run_eq. simpl.
    destruct (transport (creation_call chat_id) w') as [[v'|e''] w'']; simpl;
      split_and!; auto;
      exists [Td.getChat chat_id; descriptor_call chat_id;
              creation_call chat_id];
      simpl; rewrite <- ?app_assoc; split_and!; auto; try lia;
      repeat first [apply Forall_nil_2
                   |apply Forall_cons_2; [unfold prepares; auto|]].
  - split_and!; auto.
    exists [Td.getChat chat_id; descriptor_call chat_id].
    simpl; rewrite <- ?app_assoc; split_and!; auto; try lia;
      repeat first [apply Forall_nil_2
                   |apply Forall_cons_2; [unfold prepares; auto|]].
Qed.

(** X5. Whatever its outcome, an initialisation takes no chat out of
    [_inited_chat] and puts in none but its own; it leaves the username cache
    alone; and it hands at most three operations to the transport, each the
    probe, the descriptor fetch or the creation call of that chat. *)
Theorem initChat_only_adds_its_chat chat_id s :
  let s' := (_initChatIfNeeded chat_id s).2 in
  _inited_chat s ⊆ _inited_chat s'
  /\ _inited_chat s' ⊆ {[chat_id]} ∪ _inited_chat s
  /\ _username_cache s' = _username_cache s
  /\ exists new, calls s' = calls s ++ new
                 /\ (length new <= 3)%nat
                 /\ Forall (prepares chat_id) new.
Proof.
  destruct (initChat_effect chat_id s)
    as (Hcache & _ & _ & _ & _ & _ & Hset & Hcalls).
  cbv zeta. split_and!; auto; destruct Hset as [E | E]; rewrite E;
    first [reflexivity | apply union_subseteq_r].
Qed.

(** X6. For a chat that is not in the set and that the transport knows, the
    probe is the only call: the initialisation returns with the chat in the
    set and neither a descriptor fetch nor a creation call in the trace. *)
Theorem initChat_known_chat_is_probed_only chat_id s v w :
  chat_id ∉ _inited_chat s ->
  transport (Td.getChat chat_id) (world s) = (Resolved v, w) ->
  _initChatIfNeeded chat_id s
  = (Return tt,
     set_inited_chat ({[chat_id]} ∪ _inited_chat s)
       (set_world (calls s ++ [Td.getChat chat_id]) w s)).
Proof.
  intros Hnot Hprobe.
  rewrite initChat_unfold, bool_decide_eq_false_2 by exact Hnot.
  unfold probe_or_create. unfold_M. rewrite run_eq, Hprobe. reflexivity.
Qed.

(** X7. [setChatDescription] on a ready bot rejects every numeric chat
    identifier above [-10^12], users and basic groups among them, before it
    prepares the chat or calls the transport. *)
Theorem setChatDescription_rejects_other_chats (n : Z) (description : string)
  s :
  ready s = true ->
  - 10 ^ 12 < n ->
  setChatDescription (ChatNumber n) description s
  = (Throw (JsError "Not a supergroup or channel."), s).
Proof.
  intros Hready Hn. unfold setChatDescription. unfold_M. rewrite Hready.
  simpl. destruct (Z.gtb_spec n (- 10 ^ 12)); [reflexivity|lia].
Qed.

(** X8. [setChatDescription] on a ready bot, for a prepared chat at or below
    [-10^12]: its one call sets the description of the supergroup
    [- n - 10^12]; an [ok] reply makes it return [true], any other reply is
    thrown as it is, and a rejection is passed on. *)
Theorem setChatDescription_on_supergroup (n : Z) (description : string) s :
  ready s = true ->
  n <= - 10 ^ 12 ->
  n ∈ _inited_chat s ->
  let c := Td.setSupergroupDescription (- n - 10 ^ 12) description in
  setChatDescription (ChatNumber n) description s
  = (match (transport c (world s)).1 with
     | Resolved ret =>
         if String.eqb (Td.at_type ret) "ok" then Return true
         else Throw (Thrown ret)
     | Rejected e => Throw e
     end,
     set_world (calls s ++ [c]) (transport c (world s)).2 s).
Proof.
  intros Hready Hn Hin c. unfold setChatDescription. unfold_M.
  rewrite Hready. simpl.
  destruct (Z.gtb_spec n (- 10 ^ 12)); [lia|].
  rewrite initChat_unfold, bool_decide_eq_true_2 by exact Hin.
  replace (Z.abs n - 10 ^ 12) with (- n - 10 ^ 12) by lia.
  fold c. rewrite run_eq.
  destruct (transport c (world s)) as [[ret|e] w]; simpl; [|reflexivity].
  destruct (String.eqb (Td.at_type ret) "ok"); reflexivity.
Qed.

(** X9. Whatever its arguments and whatever the transport answers,
    [deleteMessage] only adds to the trace, and a [deleteMessages] that it
    adds revokes and names between 1 and 100 messages. *)
Theorem deleteMessage_respects_the_limit (chat_id : chat_ref)
  (message_ids : message_ids_arg) s :
  exists new,
    calls (deleteMessage chat_id message_ids s).2 = calls s ++ new
    /\ Forall within_limit new.
Proof.
  unfold deleteMessage. unfold_M. destruct (ready s); simpl;
    [|exists []; split; [symmetry; apply app_nil_r|constructor]].
  pose proof (checkChatId_effect chat_id s) as Hcheck.
  destruct (_checkChatId chat_id s) as [[c|e] s1]; simpl in Hcheck;
    destruct Hcheck as (_ & _ & _ & _ & _ & _ & _ & _ & _ & Hcalls1).
  all: assert (Hnew1 : exists new1, calls s1 = calls s ++ new1
                                    /\ Forall within_limit new1)
    by (destruct Hcalls1 as [E | (h & _ & E)]; rewrite E;
        [exists []; split; [symmetry; apply app_nil_r|constructor]
        |eexists; split; [reflexivity|repeat constructor]]).
  all: destruct Hnew1 as (new1 & Hc1 & Hf1).
  2:{ exists new1. auto. }
  pose proof (initChat_effect c s1) as Hinit.
  destruct (_initChatIfNeeded c s1) as [[[]|e] s2]; simpl in Hinit;
    destruct Hinit as (_ & _ & _ & _ & _ & _ & _ & new2 & Hc2 & _ & Hf2).
  all: assert (Hf2' : Forall within_limit new2)
    by (eapply Forall_impl; [exact Hf2|];
        intros x Hx; exact (prepares_within_limit c x Hx)).
  2:{ exists (new1 ++ new2). simpl. rewrite Hc2, Hc1, app_assoc.
      split; [reflexivity|]. apply Forall_app_2; assumption. }
  unfold _loadMessageBatch. rewrite run_eq.
  set (ids := map get_tdlib_message_id _).
  destruct (transport (Td.getMessages c ids) (world s2)) as [[messages|e] w];
    simpl.
  2:{ exists (new1 ++ new2 ++ [Td.getMessages c ids]).
      rewrite Hc2, Hc1, <- !app_assoc. split; [reflexivity|].
      apply Forall_app_2; [exact Hf1|]. apply Forall_app_2; [exact Hf2'|].
    apply Forall_cons_2; [exact I|apply Forall_nil_2]. }
  set (to_be_deleted := omap _ _).
  destruct (Nat.eqb_spec (length to_be_deleted) 0) as [|Hnz]; simpl.
  { exists (new1 ++ new2 ++ [Td.getMessages c ids]).
    rewrite Hc2, Hc1, <- !app_assoc. split; [reflexivity|].
    apply Forall_app_2; [exact Hf1|]. apply Forall_app_2; [exact Hf2'|].
    apply Forall_cons_2; [exact I|apply Forall_nil_2]. }
  destruct (Nat.ltb_spec 100 (length to_be_deleted)) as [|Hle]; simpl.
  { exists (new1 ++ new2 ++ [Td.getMessages c ids]).
    rewrite Hc2, Hc1, <- !app_assoc. split; [reflexivity|].
    apply Forall_app_2; [exact Hf1|]. apply Forall_app_2; [exact Hf2'|].
    apply Forall_cons_2; [exact I|apply Forall_nil_2]. }
  exists (new1 ++ new2 ++ [Td.getMessages c ids;
                           Td.deleteMessages c to_be_deleted true]).
  split.
  - rewrite run_eq.
    destruct (transport _ _) as [[ret|e] w']; simpl;
      [destruct (String.eqb _ _)|]; simpl;
      rewrite Hc2, Hc1, <- !app_assoc; reflexivity.
  - apply Forall_app_2; [exact Hf1|]. apply Forall_app_2; [exact Hf2'|].
    apply Forall_cons_2; [exact I|].
    apply Forall_cons_2; [|apply Forall_nil_2].
    simpl. split; [reflexivity|lia].
Qed.

(** The three signatures of [answerCallbackQuery] give the same call:
    the old [(id, text, show_alert)] is [(id, {text, show_alert})]; an
    options object in the first place is the options, whatever comes after
    it; and the id in the first place takes the place of the one in the
    options. *)
Lemma answerCallbackQuery_signatures_agree (id text : string)
  (show_alert : option bool) (o : Td.callback_answer) (rest : options_arg)
  (arguments_2 : option bool) s :
  answerCallbackQuery (QueryId id) (LegacyText text) show_alert s
  = answerCallbackQuery (QueryId id)
      (OptionsObject
         {| Td.callback_query_id := None; Td.text := Some text;
            Td.show_alert := show_alert; Td.url := None;
            Td.cache_time := None |}) None s
  /\ answerCallbackQuery (QueryObject o) rest arguments_2 s
     = answerCallbackQuery (QueryObject o) (OptionsObject o) None s
  /\ answerCallbackQuery (QueryId id) (OptionsObject o) arguments_2 s
     = answerCallbackQuery
         (QueryObject
            {| Td.callback_query_id := Some id; Td.text := Td.text o;
               Td.show_alert := Td.show_alert o; Td.url := Td.url o;
               Td.cache_time := Td.cache_time o |}) rest arguments_2 s.
Proof. destruct rest; repeat split; reflexivity. Qed.

End Preparation.

Lemma initChat_known_chat_is_probed_only_witness :
  let P := Script.platform Script.calm [] in
  let s := Script.fresh Script.calm [] Script.plain in
  @_initChatIfNeeded P 7 s
  = (Return tt,
     set_inited_chat ({[7]} ∪ _inited_chat s)
       (@set_world P (calls s ++ [Td.getChat 7]) (0, 0%N) s)).
Proof.
  intros P s.
  apply (@initChat_known_chat_is_probed_only P 7 s Td.ok (0, 0%N)).
  - apply (bool_decide_unpack _). vm_compute. exact I.
  - reflexivity.
Defined.

Lemma setChatDescription_rejects_other_chats_witness :
  let P := Script.platform Script.calm [] in
  let s := set_ready true (Script.fresh Script.calm [] Script.plain) in
  @setChatDescription P (ChatNumber (-4242)) "about" s
  = (Throw (JsError "Not a supergroup or channel."), s).
Proof.
  intros P s.
  apply (@setChatDescription_rejects_other_chats P (-4242) "about" s).
  - reflexivity.
  - vm_compute. reflexivity.
Defined.

Lemma setChatDescription_on_supergroup_witness :
  let P := Script.platform Script.calm [] in
  let s := (@_initChatIfNeeded P (-1001234567890)
              (set_ready true (Script.fresh Script.calm [] Script.plain))).2 in
  @setChatDescription P (ChatNumber (-1001234567890)) "about" s
  = (Return true,
     @set_world P
       (calls s ++ [Td.setSupergroupDescription 1234567890 "about"])
       (0, 0%N) s).
Proof.
  intros P s.
  apply (@setChatDescription_on_supergroup P (-1001234567890) "about" s).
  - reflexivity.
  - vm_compute. discriminate.
  - apply (bool_decide_unpack _). vm_compute. exact I.
Defined.

(** ** The names of the events and the whole of the registry *)

Section EventNames.

Implicit Types (a b : string) (x : N) (z : Z).

Lemma digit_is_no_colon x : pretty_N_char x <> ":"%char.
Proof. unfold pretty_N_char. repeat case_match; discriminate. Qed.

Lemma pretty_N_go_colon_free x a :
  ":"%char ∉ list_ascii_of_string a ->
  ":"%char ∉ list_ascii_of_string (pretty_N_go x a).
Proof.
  revert a. induction (N.lt_wf_0 x) as [x _ IH]; intros a Ha.
  assert (x = 0 \/ 0 < x)%N as [->|Hpos] by lia.
  - rewrite pretty_N_go_0. exact Ha.
  - rewrite pretty_N_go_step by exact Hpos. apply IH.
    + apply N.div_lt; [exact Hpos|reflexivity].
    + simpl. intros Hin. apply elem_of_cons in Hin as [Heq|Hin].
      * symmetry in Heq. exact (digit_is_no_colon _ Heq).
      * exact (Ha Hin).
Qed.

Lemma pretty_Z_colon_free z : ":"%char ∉ list_ascii_of_string (pretty z).
Proof.
  assert (HN : forall x, ":"%char ∉ list_ascii_of_string (pretty x)).
  { intros x. unfold pretty, pretty_N. case_decide.
    - simpl. intros Hin. apply elem_of_cons in Hin as [Heq|Hin];
        [discriminate|inversion Hin].
    - apply pretty_N_go_colon_free. simpl. intros Hin. inversion Hin. }
  destruct z as [|p|p]; unfold pretty, pretty_Z.
  - simpl. intros Hin. apply elem_of_cons in Hin as [Heq|Hin];
      [discriminate|inversion Hin].
  - apply HN.
  - simpl. intros Hin. apply elem_of_cons in Hin as [Heq|Hin];
      [discriminate|]. exact (HN _ Hin).
Qed.

(** A text is cut at its first colon in one way only. *)
Lemma cut_at_colon a a' b b' :
  ":"%char ∉ list_ascii_of_string a ->
  ":"%char ∉ list_ascii_of_string a' ->
  a +:+ String ":" b = a' +:+ String ":" b' ->
  a = a' /\ b = b'.
Proof.
  revert a'. induction a as [|c a IH]; intros [|c' a'] Ha Ha' Heq;
    simpl in *.
  - injection Heq as <-. auto.
  - injection Heq as <- _. exfalso. apply Ha'. left.
  - injection Heq as -> _. exfalso. apply Ha. left.
  - injection Heq as <- Heq.
    destruct (IH a') as [<- <-]; auto.
    + intros Hin. apply Ha. right. exact Hin.
    + intros Hin. apply Ha'. right. exact Hin.
Qed.

Lemma sendMsg_event_cut (c m c' m' : Z) :
  sendMsg_event c m = sendMsg_event c' m' -> c = c' /\ m = m'.
Proof.
  unfold sendMsg_event. intros Heq. simpl in Heq.
  injection Heq as Heq.
  apply cut_at_colon in Heq as [Hc Hm]; try apply pretty_Z_colon_free.
  split; eapply pretty_Z_inj; eassumption.
Qed.

(** X10. The name of the event of a send-wait determines the chat and the
    message: waits for different pairs never share an event. *)
Theorem sendMsg_event_injective (chat_id message_id chat_id' message_id' : Z) :
  sendMsg_event chat_id message_id = sendMsg_event chat_id' message_id'
  <-> chat_id = chat_id' /\ message_id = message_id'.
Proof.
  split; [apply sendMsg_event_cut|]. intros [-> ->]. reflexivity.
Qed.

End EventNames.

Section RegistryInvariant.
Context `{Platform}.

Implicit Types (s : Bot) (p q : nat) (u : update) (o : settlement)
  (ls : list nat) (name : string).

(** The calls that settle the listeners of an event, when these are
    distinct and pending. *)
Lemma settle_all_listed o ls s :
  NoDup ls ->
  Forall (fun p => promises s !! p = Some Pending) ls ->
  forall p, p ∈ ls ->
    promises (foldl (fun b q => (settle q o b).2) s ls) !! p
    = Some (Settled o)
    /\ settled_times p (foldl (fun b q => (settle q o b).2) s ls)
       = S (settled_times p s).
Proof.
  revert s. induction ls as [|q ls IH]; intros s Hnd Hpend p Hin.
  { inversion Hin. }
  apply NoDup_cons in Hnd as [Hq Hnd].
  apply Forall_cons in Hpend as [Hqp Hpend].
  change (foldl (fun b q => (settle q o b).2) s (q :: ls))
    with (foldl (fun b q => (settle q o b).2) (settle q o s).2 ls).
  destruct (settle_pending q o s Hqp) as (Q1 & Q2 & _).
  assert (Hpend' : Forall (fun p => promises (settle q o s).2 !! p
                                    = Some Pending) ls).
  { rewrite Forall_forall in Hpend. apply Forall_forall. intros x Hx.
    destruct (settle_other x q o s) as (E & _); [|rewrite E; auto].
    intros ->. contradiction. }
  apply elem_of_cons in Hin as [->|Hin].
  - destruct (settle_all_other q o ls (settle q o s).2 Hq) as (E1 & E2 & _).
    rewrite E1, E2. auto.
  - destruct (IH (settle q o s).2 Hnd Hpend' p Hin) as (I1 & I2).
    destruct (settle_other p q o s) as (_ & E & _).
    { intros ->. contradiction. }
    rewrite I1, I2, E. auto.
Qed.

(** What the delivery of an update does to the listeners of its event and
    to everything else. *)
Lemma publish_effect u name ls o s :
  update_event u = Some name ->
  update_settlement u = Some o ->
  _events s !! name = Some ls ->
  NoDup ls ->
  Forall (fun p => promises s !! p = Some Pending) ls ->
  let s' := (publish u s).2 in
  _events s' = delete name (_events s)
  /\ (forall p, p ∈ ls ->
        promises s' !! p = Some (Settled o)
        /\ settled_times p s' = S (settled_times p s))
  /\ (forall p, p ∉ ls ->
        promises s' !! p = promises s !! p
        /\ settled_times p s' = settled_times p s).
Proof.
  intros Hu Ho Hls Hnd Hpend. cbv zeta.
  rewrite (publish_eq u name s Hu), Hls, Ho. simpl default. cbn [snd].
  set (s0 := set_events (delete name (_events s)) s).
  split; [|split].
  - destruct ls as [|q ls']; [reflexivity|].
    destruct (settle_all_other (S (list_max (q :: ls'))) o (q :: ls') s0)
      as (_ & _ & E & _); [|exact E].
    intros Hin. apply list_elem_of_In in Hin.
    pose proof (proj1 (list_max_le (q :: ls') (list_max (q :: ls')))
                  (Nat.le_refl _)) as Hmax.
    rewrite List.Forall_forall in Hmax. specialize (Hmax _ Hin). lia.
  - intros p Hin. apply (settle_all_listed o ls s0 Hnd Hpend p Hin).
  - intros p Hout.
    destruct (settle_all_other p o ls s0 Hout) as (E1 & E2 & _). auto.
Qed.

Lemma waits_ok_constructor (bot_token : string) (options : BotOptions)
  (w : World) :
  waits_ok (constructor bot_token options w).
Proof.
  split; [apply registry_ok_constructor|].
  split_and!; simpl.
  - intros name ls Hls. rewrite lookup_empty in Hls. discriminate.
  - intros n1 n2 l1 l2 p Hl1. rewrite lookup_empty in Hl1. discriminate.
  - reflexivity.
  - intros p. unfold settled_times. simpl. lia.
Qed.

Lemma waits_ok_register (chat_id message_id : Z) s :
  waits_ok s -> waits_ok (_waitMessageTillSent chat_id message_id s).2.
Proof.
  intros (Hreg & Hlists & Huniq & Hpending & Honce).
  split; [apply registry_ok_wait; exact Hreg|].
  pose proof (registry_ok_not_listening s (sendMsg_event chat_id message_id)
                Hreg) as Hfresh.
  pose proof (registry_ok_no_settlement s Hreg) as Hzero.
  destruct Hreg as [Hbound _].
  rewrite wait_eq. cbn [snd].
  set (name := sendMsg_event chat_id message_id) in *.
  set (p := length (promises s)) in *.
  assert (Hold : forall q, (q < p)%nat ->
            (promises s ++ [Pending]) !! q = promises s !! q).
  { intros q Hq. apply lookup_app_l. exact Hq. }
  assert (Hlisted : forall n l q, _events s !! n = Some l -> q ∈ l ->
            (q < p)%nat).
  { intros n l q Hl Hq. specialize (Hbound _ _ Hl).
    rewrite Forall_forall in Hbound. auto. }
  split_and!; simpl.
  - intros n l Hl. destruct (decide (name = n)) as [<-|Hne].
    + rewrite lookup_insert_eq in Hl. injection Hl as <-.
      destruct (_events s !! name) as [ls0|] eqn:Hls0; simpl in *.
      * destruct (Hlists _ _ Hls0) as [Hnd Hp]. split.
        -- apply NoDup_app. split_and!; [exact Hnd| |apply NoDup_singleton].
           intros x Hx Hx'. apply list_elem_of_singleton in Hx' as ->.
           contradiction.
        -- apply Forall_app. split.
           ++ rewrite Forall_forall in Hp. apply Forall_forall. intros x Hx.
              rewrite Hold by eauto. auto.
           ++ repeat constructor. apply list_lookup_middle. reflexivity.
      * split; [apply NoDup_singleton|].
        repeat constructor. apply (list_lookup_middle _ []). reflexivity.
    + rewrite lookup_insert_ne in Hl by exact Hne.
      destruct (Hlists _ _ Hl) as [Hnd Hp]. split; [exact Hnd|].
      rewrite Forall_forall in Hp. apply Forall_forall. intros x Hx.
      rewrite Hold by eauto. auto.
  - assert (Hnew : forall n l q,
              <[name := default [] (_events s !! name) ++ [p]]> (_events s)
                !! n = Some l -> q ∈ l ->
              (n = name /\ q = p)
              \/ (exists l0, _events s !! n = Some l0 /\ q ∈ l0)).
    { intros n l q Hl Hq. destruct (decide (name = n)) as [<-|Hne].
      - rewrite lookup_insert_eq in Hl. injection Hl as <-.
        apply elem_of_app in Hq as [Hq|Hq].
        + right. destruct (_events s !! name) as [ls0|]; simpl in Hq;
            [eauto|inversion Hq].
        + apply list_elem_of_singleton in Hq. auto.
      - rewrite lookup_insert_ne in Hl by exact Hne. eauto. }
    intros n1 n2 l1 l2 q Hl1 Hl2 Hq1 Hq2.
    destruct (Hnew _ _ _ Hl1 Hq1) as [[-> ->]|(l1' & Hl1' & Hq1')];
      destruct (Hnew _ _ _ Hl2 Hq2) as [[-> Hqp]|(l2' & Hl2' & Hq2')];
      try reflexivity.
    + pose proof (Hlisted _ _ _ Hl2' Hq2'). lia.
    + subst q. pose proof (Hlisted _ _ _ Hl1' Hq1'). lia.
    + eapply Huniq; eauto.
  - intros q Hq. change (settled_times q _) with (settled_times q s).
    destruct (decide (q < p)%nat) as [Hlt|Hge].
    + apply Hpending. rewrite <- Hold by exact Hlt. exact Hq.
    + assert (q = p) as ->; [|exact Hzero].
      apply lookup_lt_Some in Hq. rewrite length_app in Hq. simpl in Hq.
      unfold p in *. lia.
  - intros q. change (settled_times q _) with (settled_times q s).
    apply Honce.
Qed.

Lemma waits_ok_deliver u s : waits_ok s -> waits_ok (publish u s).2.
Proof.
  intros Hok. pose proof Hok as (Hreg & Hlists & Huniq & Hpending & Honce).
  split; [apply registry_ok_publish; exact Hreg|].
  destruct (update_event u) as [name|] eqn:Hu.
  2:{ destruct u; try discriminate. simpl. auto. }
  destruct (_events s !! name) as [ls|] eqn:Hls.
  2:{ rewrite (publish_eq u name s Hu), Hls. simpl. auto. }
  assert (Ho : exists o, update_settlement u = Some o).
  { destruct u; try discriminate; simpl; eauto. }
  destruct Ho as [o Ho].
  destruct (Hlists _ _ Hls) as [Hnd Hp].
  destruct (publish_effect u name ls o s Hu Ho Hls Hnd Hp)
    as (Hev & Hin & Hout).
  rewrite Forall_forall in Hp.
  split_and!.
  - intros n l Hl. rewrite Hev in Hl.
    apply lookup_delete_Some in Hl as [Hne Hl].
    destruct (Hlists _ _ Hl) as [Hnd' Hp']. split; [exact Hnd'|].
    rewrite Forall_forall in Hp'. apply Forall_forall. intros x Hx.
    destruct (Hout x) as [E _]; [|rewrite E; auto].
    intros Hx'. apply Hne. eapply Huniq; eauto.
  - intros n1 n2 l1 l2 q Hl1 Hl2. rewrite Hev in Hl1, Hl2.
    apply lookup_delete_Some in Hl1 as [_ Hl1].
    apply lookup_delete_Some in Hl2 as [_ Hl2]. eauto.
  - intros q Hq. destruct (decide (q ∈ ls)) as [Hq'|Hq'].
    + destruct (Hin q Hq') as [E _]. rewrite E in Hq. discriminate.
    + destruct (Hout q Hq') as [E1 E2]. rewrite E2. apply Hpending.
      rewrite <- E1. exact Hq.
  - intros q. destruct (decide (q ∈ ls)) as [Hq'|Hq'].
    + destruct (Hin q Hq') as [_ E]. rewrite E, (Hpending q) by auto. lia.
    + destruct (Hout q Hq') as [_ E]. rewrite E. apply Honce.
Qed.

Lemma waits_ok_acts (l : list action) s : waits_ok s -> waits_ok (acts l s).
Proof.
  revert s. induction l as [|a l IH]; intros s Hok; [exact Hok|].
  apply (IH (act a s)). destruct a; simpl.
  - apply waits_ok_register. exact Hok.
  - apply waits_ok_deliver. exact Hok.
Qed.

End RegistryInvariant.

Section RegistryTheorems.
Context `{Platform}.

Implicit Types (s : Bot) (p : nat) (u : update) (o : settlement)
  (ls : list nat) (name : string).

(** X11. On a consistent registry, the delivery of an update settles every
    listener of its event as the update says, each by exactly one call of
    [rs] or [rj], and removes the event; it leaves every other promise, and
    the number of calls it has seen, as they were. *)
Theorem publish_settles_its_listeners_only u name ls o s :
  waits_ok s ->
  update_event u = Some name ->
  update_settlement u = Some o ->
  _events s !! name = Some ls ->
  let s' := (publish u s).2 in
  _events s' = delete name (_events s)
  /\ (forall p, p ∈ ls ->
        promises s' !! p = Some (Settled o) /\ settled_times p s' = 1%nat)
  /\ (forall p, p ∉ ls ->
        promises s' !! p = promises s !! p
        /\ settled_times p s' = settled_times p s).
Proof.
  intros (_ & Hlists & _ & Hpending & _) Hu Ho Hls.
  destruct (Hlists _ _ Hls) as [Hnd Hp].
  destruct (publish_effect u name ls o s Hu Ho Hls Hnd Hp)
    as (Hev & Hin & Hout).
  cbv zeta. split_and!; [exact Hev| |exact Hout].
  intros p Hp'. destruct (Hin p Hp') as [E1 E2]. split; [exact E1|].
  rewrite E2, Hpending; [reflexivity|].
  rewrite Forall_forall in Hp. auto.
Qed.

(** X12. From a new bot, through any sequence of registrations of waits and
    deliveries of updates, the registry stays consistent: a promise is
    listened for at most once and under one event, a promise that is
    listened for is pending, a pending promise has seen no call of its [rs]
    or [rj], and no promise has seen more than one. *)
Theorem send_waits_stay_consistent (bot_token : string)
  (options : BotOptions) (w : World) (l : list action) :
  waits_ok (acts l (constructor bot_token options w)).
Proof. apply waits_ok_acts, waits_ok_constructor. Qed.

(** X13. A wait is not touched by the update of another send: after an
    update for another chat or another message, the promise of the wait is
    still pending, has seen no call, and is still listened for under its own
    event. *)
Theorem other_update_leaves_wait_pending (chat_id message_id : Z)
  (chat_id' message_id' : Z) u s :
  waits_ok s ->
  (chat_id', message_id') <> (chat_id, message_id) ->
  update_event u = Some (sendMsg_event chat_id' message_id') ->
  let p := length (promises s) in
  let s1 := (_waitMessageTillSent chat_id message_id s).2 in
  let s2 := (publish u s1).2 in
  (_waitMessageTillSent chat_id message_id s).1 = Return p
  /\ promises s2 !! p = Some Pending
  /\ settled_times p s2 = 0%nat
  /\ exists ls, _events s2 !! sendMsg_event chat_id message_id = Some ls
                /\ p ∈ ls.
Proof.
  intros Hok Hne Hu p s1 s2.
  assert (Hnames : sendMsg_event chat_id' message_id'
                   <> sendMsg_event chat_id message_id).
  { intros Heq. apply sendMsg_event_cut in Heq as [-> ->]. auto. }
  pose proof (waits_ok_register chat_id message_id s Hok) as Hok1.
  fold s1 in Hok1.
  assert (Hlisted : exists ls,
            _events s1 !! sendMsg_event chat_id message_id = Some ls
            /\ p ∈ ls).
  { subst s1. rewrite wait_eq. cbn [snd]. simpl.
    rewrite lookup_insert_eq. eexists. split; [reflexivity|].
    apply elem_of_app. right. apply list_elem_of_singleton. reflexivity. }
  assert (Hpend : promises s1 !! p = Some Pending).
  { subst s1. rewrite wait_eq. cbn [snd]. simpl.
    apply list_lookup_middle. reflexivity. }
  destruct Hok1 as (_ & Hlists & Huniq & Hpending & _).
  split; [reflexivity|].
  destruct (_events s1 !! sendMsg_event chat_id' message_id')
    as [ls'|] eqn:Hls'.
  - assert (Ho : exists o, update_settlement u = Some o).
    { destruct u; try discriminate; simpl; eauto. }
    destruct Ho as [o Ho]. destruct (Hlists _ _ Hls') as [Hnd Hp].
    destruct (publish_effect u _ ls' o s1 Hu Ho Hls' Hnd Hp)
      as (Hev & _ & Hout).
    destruct Hlisted as (ls & Hls & Hin).
    assert (Hnot : p ∉ ls').
    { intros Hin'. apply Hnames. eapply Huniq; eauto. }
    destruct (Hout p Hnot) as [E1 E2]. fold s2 in E1, E2, Hev.
    rewrite E1, E2, Hev. split_and!; [exact Hpend|auto|].
    exists ls. rewrite lookup_delete_ne by exact Hnames. auto.
  - subst s2. rewrite (publish_eq u _ s1 Hu), Hls'. cbn [snd].
    split_and!; auto.
Qed.

End RegistryTheorems.

Lemma publish_settles_its_listeners_only_witness :
  let P := Script.platform Script.calm [] in
  let s := (@_waitMessageTillSent P 42 7
              (@_waitMessageTillSent P 42 7
                 (Script.fresh Script.calm [] Script.plain)).2).2 in
  let m := {| Td.Message.id := 2097152; Td.Message.chat_id := 42;
              Td.Message.can_be_deleted_for_all_users := true |} in
  let s' := (@publish P (updateMessageSendSucceeded m 7) s).2 in
  _events s' = delete (sendMsg_event 42 7) (_events s)
  /\ (forall p, p ∈ [0%nat; 1%nat] ->
        promises s' !! p = Some (Settled (Fulfilled m))
        /\ settled_times p s' = 1%nat)
  /\ (forall p, p ∉ [0%nat; 1%nat] ->
        promises s' !! p = promises s !! p
        /\ settled_times p s' = settled_times p s).
Proof.
  intros P s m.
  apply (@publish_settles_its_listeners_only P
           (updateMessageSendSucceeded m 7) (sendMsg_event 42 7)
           [0%nat; 1%nat] (Fulfilled m) s).
  - apply (@waits_ok_acts P [Register 42 7; Register 42 7]),
      waits_ok_constructor.
  - reflexivity.
  - reflexivity.
  - vm_compute. reflexivity.
Defined.

Lemma other_update_leaves_wait_pending_witness :
  let P := Script.platform Script.calm [] in
  let s := Script.fresh Script.calm [] Script.plain in
  let m := {| Td.Message.id := 2097152; Td.Message.chat_id := 42;
              Td.Message.can_be_deleted_for_all_users := true |} in
  let s1 := (@_waitMessageTillSent P 42 7 s).2 in
  let s2 := (@publish P (updateMessageSendSucceeded m 8) s1).2 in
  (@_waitMessageTillSent P 42 7 s).1 = Return 0%nat
  /\ promises s2 !! 0%nat = Some Pending
  /\ settled_times 0 s2 = 0%nat
  /\ exists ls, _events s2 !! sendMsg_event 42 7 = Some ls /\ 0%nat ∈ ls.
Proof.
  intros P s m.
  apply (@other_update_leaves_wait_pending P 42 7 42 8
           (updateMessageSendSucceeded m 8) s).
  - apply waits_ok_constructor.
  - discriminate.
  - reflexivity.
Defined.

(** ** The callback payloads at their edges *)

Section CodecSizes.

Import Buffer.

Lemma string_of_list_ascii_length (l : list ascii) :
  String.length (string_of_list_ascii l) = length l.
Proof. induction l as [|c l IH]; simpl; congruence. Qed.

Lemma padding_period (n : nat) : padding (3 + n) = padding n.
Proof.
  unfold padding. replace (3 + n)%nat with (n + 1 * 3)%nat by lia.
  rewrite Nat.Div0.mod_add. reflexivity.
Qed.

Lemma to_base64_length (bs : list byte) :
  String.length (to_base64 bs) = (4 * ((length bs + 2) / 3))%nat.
Proof.
  unfold to_base64. rewrite string_of_list_ascii_length, length_app, length_map.
  assert (Hlen : forall n bs, (length bs <= n)%nat ->
            (length (sextets bs) + length (padding (length bs))
             = 4 * ((length bs + 2) / 3))%nat).
  { clear bs. induction n as [|n IH]; intros bs Hle.
    - destruct bs; [reflexivity|simpl in Hle; lia].
    - destruct bs as [|a [|b [|c rest]]]; [reflexivity..|].
      change (length (a :: b :: c :: rest)) with (3 + length rest)%nat.
      rewrite padding_period.
      change (length (sextets (a :: b :: c :: rest)))
        with (4 + length (sextets rest))%nat.
      specialize (IH rest). simpl in Hle.
      replace (3 + length rest + 2)%nat
        with (1 * 3 + (length rest + 2))%nat by lia.
      rewrite Nat.div_add_l by lia. lia. }
  apply (Hlen (length bs)). lia.
Qed.

Lemma cfb_encrypt_length (E : list byte -> list byte) (st : Cfb.state)
  (input : list byte) :
  length (Cfb.encrypt E st input) = length input.
Proof.
  revert st. induction input as [|x rest IH]; intros st; [reflexivity|].
  simpl. rewrite IH. reflexivity.
Qed.

End CodecSizes.

Section PayloadEdges.
Context `{Platform}.

Implicit Types (s : Bot) (p : string) (key : list byte).

(** X14. Without encryption a payload of any length becomes the base-64 text
    of its octets, with no look at the random source, and comes back from it
    as it was. *)
Theorem callback_data_without_encryption p s :
  _encrypt_callback_query s = None ->
  encrypt_callback_data p s
  = (Return (Buffer.to_base64 (Buffer.from_utf8 p)), s)
  /\ forall s', _encrypt_callback_query s' = None ->
       decrypt_callback_data (Buffer.to_base64 (Buffer.from_utf8 p)) s'
       = (Return (Some p), s').
Proof.
  intros Hoff. split.
  - unfold encrypt_callback_data. unfold_M. rewrite Hoff. reflexivity.
  - intros s' Hoff'. unfold decrypt_callback_data. unfold_M. rewrite Hoff'.
    rewrite from_to_base64. unfold Buffer.to_utf8, Buffer.from_utf8.
    rewrite string_of_list_byte_of_string. reflexivity.
Qed.

(** X15. With encryption a payload of more than 48 octets is refused before
    an IV is drawn: the state, the random source in it, is as it was. *)
Theorem callback_data_too_long p key s :
  _encrypt_callback_query s = Some key ->
  (48 < length (Buffer.from_utf8 p))%nat ->
  encrypt_callback_data p s
  = (Throw (JsError "Payload too long. 48 bytes max."), s).
Proof.
  intros Hkey Hlong. unfold encrypt_callback_data. unfold_M. rewrite Hkey.
  destruct (Nat.ltb_spec 48 (length (Buffer.from_utf8 p)));
    [reflexivity|lia].
Qed.

(** X16. Reading a payload never throws and never changes the state; it
    gives up, so that the update is discarded, exactly when encryption is on
    and the decoded token has fewer than 16 octets, too few for an IV. *)
Theorem decrypt_callback_data_discards_short_tokens (token : string) s :
  exists r,
    decrypt_callback_data token s = (Return r, s)
    /\ (r = None <->
        is_Some (_encrypt_callback_query s)
        /\ (length (Buffer.from_base64 token) < 16)%nat).
Proof.
  unfold decrypt_callback_data. unfold_M.
  destruct (_encrypt_callback_query s) as [key|].
  - rewrite length_take.
    destruct (Nat.eqb_spec (16 `min` length (Buffer.from_base64 token)) 16).
    + eexists. split; [reflexivity|]. split; [discriminate|].
      intros [_ Hshort]. lia.
    + eexists. split; [reflexivity|]. split; [|reflexivity].
      intros _. split; [eauto|lia].
  - eexists. split; [reflexivity|]. split; [discriminate|].
    intros [[key Hkey] _]. discriminate.
Qed.

(** X17. With encryption, the token of a payload of [n <= 48] octets decodes
    to [16 + n] octets, at most 64, and is a text of [4 * ((18 + n) / 3)]
    characters, at most 88. *)
Theorem callback_token_size p key s :
  _encrypt_callback_query s = Some key ->
  (length (Buffer.from_utf8 p) <= 48)%nat ->
  exists token,
    (encrypt_callback_data p s).1 = Return token
    /\ length (Buffer.from_base64 token)
       = (16 + length (Buffer.from_utf8 p))%nat
    /\ (length (Buffer.from_base64 token) <= 64)%nat
    /\ String.length token
       = (4 * ((18 + length (Buffer.from_utf8 p)) / 3))%nat
    /\ (String.length token <= 88)%nat.
Proof.
  intros Hkey Hlen. eexists.
  split; [apply (encrypt_callback_data_eq p key s Hkey Hlen)|].
  rewrite from_to_base64, to_base64_length, length_app, cfb_encrypt_length,
    randomBytes_length.
  split_and!; try lia.
  - f_equal. f_equal. lia.
  - pose proof (Nat.Div0.div_le_mono
                  (16 + length (Buffer.from_utf8 p) + 2) 66 3) as Hdiv.
    change (66 / 3)%nat with 22%nat in Hdiv. lia.
Qed.

End PayloadEdges.

Lemma callback_data_without_encryption_witness :
  let P := Script.platform Script.calm [] in
  let s := Script.fresh Script.calm [] Script.plain in
  @encrypt_callback_data P "vote:yes" s = (Return "dm90ZTp5ZXM=", s)
  /\ forall s', _encrypt_callback_query s' = None ->
       @decrypt_callback_data P "dm90ZTp5ZXM=" s'
       = (Return (Some "vote:yes"), s').
Proof.
  intros P s.
  apply (@callback_data_without_encryption P "vote:yes" s).
  reflexivity.
Defined.

Lemma callback_data_too_long_witness :
  let P := Script.platform Script.calm [] in
  let s := Script.fresh Script.calm [] Script.encrypting in
  let p := "0123456789012345678901234567890123456789012345678" in
  @encrypt_callback_data P p s
  = (Throw (JsError "Payload too long. 48 bytes max."), s).
Proof.
  intros P s p.
  apply (@callback_data_too_long P p (@scryptSync P "42:token") s).
  - reflexivity.
  - vm_compute. lia.
Defined.

Lemma callback_token_size_witness :
  let P := Script.platform Script.calm [] in
  let s := Script.fresh Script.calm [] Script.encrypting in
  exists token,
    (@encrypt_callback_data P "vote:yes" s).1 = Return token
    /\ length (Buffer.from_base64 token)
       = (16 + length (Buffer.from_utf8 "vote:yes"))%nat
    /\ (length (Buffer.from_base64 token) <= 64)%nat
    /\ String.length token
       = (4 * ((18 + length (Buffer.from_utf8 "vote:yes")) / 3))%nat
    /\ (String.length token <= 88)%nat.
Proof.
  intros P s.
  apply (@callback_token_size P "vote:yes" (@scryptSync P "42:token") s).
  - reflexivity.
  - vm_compute. lia.
Defined.

(** ** [_parseReplyMarkup] *)

Section MarkupLemmas.
Context `{Platform}.

Implicit Types (s : Bot).

Lemma same_but_world_refl s : same_but_world s s.
Proof. unfold same_but_world. split_and!; reflexivity. Qed.

Lemma same_but_world_trans s1 s2 s3 :
  same_but_world s1 s2 -> same_but_world s2 s3 -> same_but_world s1 s3.
Proof.
  unfold same_but_world.
  intros (A1 & A2 & A3 & A4 & A5 & A6 & A7 & A8 & A9 & A10)
         (B1 & B2 & B3 & B4 & B5 & B6 & B7 & B8 & B9 & B10).
  split_and!; congruence.
Qed.

Lemma encrypt_callback_data_effect (d : string) s :
  same_but_world s (encrypt_callback_data d s).2
  /\ (forall e, (encrypt_callback_data d s).1 = Throw e ->
        e = JsError "Payload too long. 48 bytes max.")
  /\ (_encrypt_callback_query s = None ->
      exists token, encrypt_callback_data d s = (Return token, s))
  /\ (forall token, (encrypt_callback_data d s).1 = Return token ->
      forall s', _encrypt_callback_query s' = _encrypt_callback_query s ->
        decrypt_callback_data token s' = (Return (Some d), s')).
Proof.
  unfold encrypt_callback_data. unfold_M.
  destruct (_encrypt_callback_query s) as [key|] eqn:Hkey.
  - destruct (Nat.ltb_spec 48 (length (Buffer.from_utf8 d))) as [Hlong|Hok];
      simpl.
    + split_and!; [apply same_but_world_refl|congruence|discriminate
                  |discriminate].
    + unfold random.
      pose proof (randomBytes_length 16 (world s)) as Hiv.
      destruct (randomBytes 16 (world s)) as [iv w]. simpl in *.
      split_and!; [unfold same_but_world; split_and!; reflexivity
                  |discriminate|discriminate|].
      intros token [= <-] s' Hkey'.
      rewrite (decrypt_token key iv _ s' Hkey' Hiv), cfb_decrypt_encrypt.
      unfold Buffer.to_utf8, Buffer.from_utf8.
      rewrite string_of_list_byte_of_string. reflexivity.
  - simpl. split_and!; [apply same_but_world_refl|discriminate|eauto|].
    intros token [= <-] s' Hoff. unfold decrypt_callback_data. unfold_M.
    rewrite Hoff, from_to_base64. unfold Buffer.to_utf8, Buffer.from_utf8.
    rewrite string_of_list_byte_of_string. reflexivity.
Qed.

Lemma parse_inline_button_effect (c : InlineKeyboardButton.t) s :
  same_but_world s (parse_inline_button c s).2
  /\ (forall e, (parse_inline_button c s).1 = Throw e ->
        e = JsError "Payload too long. 48 bytes max.")
  /\ (_encrypt_callback_query s = None ->
      exists col, parse_inline_button c s = (Return col, s))
  /\ (forall col, (parse_inline_button c s).1 = Return col ->
        button_parsed s c col)
  /\ (is_Some (_encrypt_callback_query s) -> oversized c ->
      (parse_inline_button c s).1
      = Throw (JsError "Payload too long. 48 bytes max.")).
Proof.
  unfold parse_inline_button, button_parsed, oversized.
  destruct (InlineKeyboardButton.url c) as [url|] eqn:Hurl.
  { simpl. split_and!; [apply same_but_world_refl|discriminate|eauto| |].
    - intros col [= <-]. simpl. split_and!; [reflexivity| |discriminate].
      intros url' [= <-]. reflexivity.
    - intros _ [Hno _]. discriminate. }
  destruct (InlineKeyboardButton.callback_data c) as [d|] eqn:Hdata.
  { destruct (encrypt_callback_data_effect d s) as (E1 & E2 & E3 & E4).
    unfold_M.
    destruct (encrypt_callback_data d s) as [[token|e] s1] eqn:Henc;
      simpl in *.
    - split_and!; [exact E1|discriminate| | |].
      + intros Hoff. destruct (E3 Hoff) as (token' & [= -> ->]). eauto.
      + intros col [= <-]. simpl. split_and!; [reflexivity|discriminate|].
        intros _ d' [= <-]. exists token. split; [reflexivity|].
        apply E4. reflexivity.
      + intros [key Hkey] (_ & d' & [= <-] & Hlong). exfalso.
        unfold encrypt_callback_data in Henc. unfold_M.
        rewrite Hkey in Henc.
        destruct (Nat.ltb_spec 48 (length (Buffer.from_utf8 d)));
          [discriminate|lia].
    - split_and!; [exact E1| | |discriminate|].
      + intros e' [= <-]. apply E2. reflexivity.
      + intros Hoff. destruct (E3 Hoff) as (token' & Habs). discriminate.
      + intros _ _. f_equal. apply E2. reflexivity. }
  destruct (InlineKeyboardButton.switch_inline_query c);
    [|destruct (InlineKeyboardButton.switch_inline_query_current_chat c);
      [|destruct (InlineKeyboardButton.callback_game c);
        [|destruct (InlineKeyboardButton.pay c)]]];
    simpl;
    (split_and!;
     [apply same_but_world_refl|discriminate|eauto
     |intros col [= <-]; simpl; split_and!;
      [reflexivity|discriminate|intros _ d' Hd'; discriminate]
     |intros _ (_ & d' & Hd' & _); discriminate]).
Qed.

(** A loop whose body keeps an invariant and only throws [E]. *)
Lemma for_of_effect {A B : Type} (body : A -> M B) (R : Bot -> A -> B -> Prop)
  (Bad : A -> Prop) (E : exn) s0 :
  (forall x s, same_but_world s0 s ->
     same_but_world s (body x s).2
     /\ (forall e, (body x s).1 = Throw e -> e = E)
     /\ (_encrypt_callback_query s0 = None ->
         exists y, body x s = (Return y, s))
     /\ (forall y, (body x s).1 = Return y -> R s0 x y)
     /\ (is_Some (_encrypt_callback_query s0) -> Bad x ->
         (body x s).1 = Throw E)) ->
  forall (l : list A) s, same_but_world s0 s ->
    same_but_world s (for_of body l s).2
    /\ (forall e, (for_of body l s).1 = Throw e -> e = E)
    /\ (_encrypt_callback_query s0 = None ->
        exists ys, for_of body l s = (Return ys, s))
    /\ (forall ys, (for_of body l s).1 = Return ys -> Forall2 (R s0) l ys)
    /\ (is_Some (_encrypt_callback_query s0) -> Exists Bad l ->
        (for_of body l s).1 = Throw E).
Proof.
  intros Hbody l. induction l as [|x l IH]; intros s Hs.
  { simpl. split_and!; [apply same_but_world_refl|discriminate|eauto| |].
    - intros ys [= <-]. constructor.
    - intros _ Hex. inversion Hex. }
  destruct (Hbody x s Hs) as (B1 & B2 & B3 & B4 & B5).
  simpl. unfold mbind, M_bind.
  destruct (body x s) as [[y|e] s1] eqn:Hx; simpl in *.
  2:{ split_and!; [exact B1| | |discriminate|].
      - intros e' [= <-]. apply B2. reflexivity.
      - intros Hoff. destruct (B3 Hoff) as (y & Habs). discriminate.
      - intros _ _. f_equal. apply B2. reflexivity. }
  assert (Hs1 : same_but_world s0 s1)
    by (eapply same_but_world_trans; eassumption).
  destruct (IH s1 Hs1) as (I1 & I2 & I3 & I4 & I5).
  destruct (for_of body l s1) as [[ys|e] s2] eqn:Hl; simpl in *.
  - split_and!; [eapply same_but_world_trans; eassumption|discriminate| | |].
    + intros Hoff. destruct (B3 Hoff) as (y' & [= -> ->]).
      destruct (I3 Hoff) as (ys' & [= -> ->]). eauto.
    + intros ys' [= <-]. constructor; auto.
    + intros Hon Hex. apply Exists_cons in Hex as [Hbad|Hex].
      * specialize (B5 Hon Hbad). discriminate.
      * specialize (I5 Hon Hex). discriminate.
  - split_and!; [eapply same_but_world_trans; eassumption|exact I2|
                 |discriminate|].
    + intros Hoff. destruct (I3 Hoff) as (ys' & Habs). discriminate.
    + intros _ _. f_equal. apply I2. reflexivity.
Qed.

End MarkupLemmas.

Section MarkupTheorems.
Context `{Platform}.

Implicit Types (s : Bot) (m : ReplyMarkup.t).

Lemma button_parsed_same s0 s (c : InlineKeyboardButton.t)
  (col : TdMarkup.inlineKeyboardButton) :
  _encrypt_callback_query s = _encrypt_callback_query s0 ->
  button_parsed s c col -> button_parsed s0 c col.
Proof.
  unfold button_parsed. intros Hkey (P1 & P2 & P3).
  split_and!; [exact P1|exact P2|].
  intros Hurl d Hd. destruct (P3 Hurl d Hd) as (token & Htype & Hread).
  exists token. split; [exact Htype|]. intros b' Hb'. apply Hread. congruence.
Qed.

(** The two loops of [_parseReplyMarkup] over an inline keyboard. *)
Lemma parse_rows_effect s0 (rows : list (list InlineKeyboardButton.t)) s :
  same_but_world s0 s ->
  same_but_world s (for_of (for_of parse_inline_button) rows s).2
  /\ (forall e, (for_of (for_of parse_inline_button) rows s).1 = Throw e ->
        e = JsError "Payload too long. 48 bytes max.")
  /\ (_encrypt_callback_query s0 = None ->
      exists out, for_of (for_of parse_inline_button) rows s
                  = (Return out, s))
  /\ (forall out, (for_of (for_of parse_inline_button) rows s).1 = Return out ->
        Forall2 (Forall2 (button_parsed s0)) rows out)
  /\ (is_Some (_encrypt_callback_query s0) ->
      Exists (Exists oversized) rows ->
      (for_of (for_of parse_inline_button) rows s).1
      = Throw (JsError "Payload too long. 48 bytes max.")).
Proof.
  revert s.
  apply (for_of_effect (for_of parse_inline_button)
           (fun b => Forall2 (button_parsed b)) (Exists oversized)).
  intros row.
  apply (for_of_effect parse_inline_button button_parsed oversized).
  intros c s (_ & Hkey & _).
  destruct (parse_inline_button_effect c s) as (E1 & E2 & E3 & E4 & E5).
  split_and!; [exact E1|exact E2| | |].
  - intros Hoff. apply E3. congruence.
  - intros col Hcol. apply (button_parsed_same s0 s); auto.
  - intros Hon. apply E5. rewrite Hkey. exact Hon.
Qed.

(** X18. When [_parseReplyMarkup] returns on a markup with an inline
    keyboard, the result is an inline keyboard with a button for each button
    of the source, row by row and in order; each keeps its label, a [url]
    goes before everything else, and the data of each callback button is a
    token that [_processIncomingCallbackQuery] reads back as the
    [callback_data], with the encryption on or off as it was. *)
Theorem parseReplyMarkup_inline_keyboard m
  (rows : list (list InlineKeyboardButton.t)) s
  (k : option TdMarkup.replyMarkup) :
  ReplyMarkup.inline_keyboard m = Some rows ->
  (_parseReplyMarkup m s).1 = Return k ->
  exists out,
    k = Some (TdMarkup.replyMarkupInlineKeyboard out)
    /\ Forall2 (Forall2 (button_parsed s)) rows out.
Proof.
  intros Hrows. unfold _parseReplyMarkup. rewrite Hrows. unfold_M.
  destruct (parse_rows_effect s rows s (same_but_world_refl s))
    as (_ & _ & _ & Hshape & _).
  destruct (for_of (for_of parse_inline_button) rows s) as [[out|e] s1];
    simpl in *; [|discriminate].
  intros [= <-]. exists out. split; [reflexivity|]. apply Hshape. reflexivity.
Qed.

(** X19. [_parseReplyMarkup] changes nothing of the bot but how far the
    random source has been read, and it hands nothing to the transport; on a
    bot without encryption, and on a markup without an inline keyboard, it
    returns and changes nothing at all. *)
Theorem parseReplyMarkup_only_draws_ivs m s :
  same_but_world s (_parseReplyMarkup m s).2
  /\ (_encrypt_callback_query s = None
      \/ ReplyMarkup.inline_keyboard m = None ->
      exists k, _parseReplyMarkup m s = (Return k, s)).
Proof.
  unfold _parseReplyMarkup.
  destruct (ReplyMarkup.inline_keyboard m) as [rows|].
  - unfold_M.
    destruct (parse_rows_effect s rows s (same_but_world_refl s))
      as (Hsame & _ & Hpure & _).
    destruct (for_of (for_of parse_inline_button) rows s) as [[out|e] s1];
      simpl in *; (split; [exact Hsame|]);
      intros [Hoff|Hno]; try discriminate;
      destruct (Hpure Hoff) as (out' & Heq); [|discriminate].
    injection Heq as -> ->. eauto.
  - destruct (ReplyMarkup.keyboard m);
      [|destruct (ReplyMarkup.remove_keyboard m);
        [|destruct (ReplyMarkup.force_reply m)]];
      (split; [apply same_but_world_refl|eauto]).
Qed.

(** X20. The one exception of [_parseReplyMarkup] is that of a payload too
    long; with encryption on it is thrown as soon as one button of the
    inline keyboard that has no [url] carries a [callback_data] of more than
    48 octets, so that no markup is built at all. *)
Theorem parseReplyMarkup_payload_too_long m s :
  (forall e, (_parseReplyMarkup m s).1 = Throw e ->
     e = JsError "Payload too long. 48 bytes max.")
  /\ (forall rows, ReplyMarkup.inline_keyboard m = Some rows ->
        is_Some (_encrypt_callback_query s) ->
        Exists (Exists oversized) rows ->
        (_parseReplyMarkup m s).1
        = Throw (JsError "Payload too long. 48 bytes max.")).
Proof.
  unfold _parseReplyMarkup.
  destruct (ReplyMarkup.inline_keyboard m) as [rows|].
  - unfold_M.
    destruct (parse_rows_effect s rows s (same_but_world_refl s))
      as (_ & Honly & _ & _ & Hlong).
    destruct (for_of (for_of parse_inline_button) rows s) as [[out|e] s1];
      simpl in *.
    + split; [discriminate|]. intros rows' [= <-] Hon Hex.
      specialize (Hlong Hon Hex). discriminate.
    + split.
      * intros e' [= <-]. apply Honly. reflexivity.
      * intros rows' [= <-] Hon Hex. f_equal. apply Honly. reflexivity.
  - split; [|discriminate].
    destruct (ReplyMarkup.keyboard m);
      [|destruct (ReplyMarkup.remove_keyboard m);
        [|destruct (ReplyMarkup.force_reply m)]]; discriminate.
Qed.

End MarkupTheorems.

(** ** [_sendMessage] and [sendMessage] *)

Section SendingLemmas.
Context `{Messenger}.

Implicit Types (b : Bot) (ss : Session).

Lemma same_waits_refl b : same_waits b b.
Proof. unfold same_waits. auto. Qed.

Lemma same_waits_trans b1 b2 b3 :
  same_waits b1 b2 -> same_waits b2 b3 -> same_waits b1 b3.
Proof.
  unfold same_waits. intros (A1 & A2 & A3) (B1 & B2 & B3).
  split_and!; congruence.
Qed.

Lemma same_but_world_waits b b' : same_but_world b b' -> same_waits b b'.
Proof.
  unfold same_but_world, same_waits.
  intros (_ & _ & _ & _ & _ & _ & E1 & E2 & E3 & _). auto.
Qed.

Lemma same_waits_ok b b' : same_waits b b' -> waits_ok b -> waits_ok b'.
Proof.
  unfold same_waits, waits_ok, registry_ok, settled_times.
  intros (E1 & E2 & E3). rewrite E1, E2, E3. auto.
Qed.

Lemma checkChatId_waits (chat_id : chat_ref) b :
  same_waits b (_checkChatId chat_id b).2
  /\ _inited_chat (_checkChatId chat_id b).2 = _inited_chat b.
Proof.
  destruct (checkChatId_effect chat_id b) as (E0 & E1 & E2 & E3 & _).
  unfold same_waits. auto.
Qed.

Lemma initChat_waits (chat_id : Z) b :
  same_waits b (_initChatIfNeeded chat_id b).2.
Proof.
  destruct (initChat_effect chat_id b) as (_ & E1 & E2 & E3 & _).
  unfold same_waits. auto.
Qed.

Lemma parseReplyMarkup_same (m : ReplyMarkup.t) b :
  same_but_world b (_parseReplyMarkup m b).2
  /\ (forall e, (_parseReplyMarkup m b).1 = Throw e ->
        e = JsError "Payload too long. 48 bytes max.")
  /\ (forall rows, ReplyMarkup.inline_keyboard m = Some rows ->
        is_Some (_encrypt_callback_query b) ->
        Exists (Exists oversized) rows ->
        exists b', _parseReplyMarkup m b
                   = (Throw (JsError "Payload too long. 48 bytes max."), b')).
Proof.
  unfold _parseReplyMarkup.
  destruct (ReplyMarkup.inline_keyboard m) as [rows|].
  - unfold_M.
    destruct (parse_rows_effect b rows b (same_but_world_refl b))
      as (Hsame & Honly & _ & _ & Hlong).
    destruct (for_of (for_of parse_inline_button) rows b) as [[out|e] b1];
      simpl in *; split_and!; try exact Hsame; try discriminate.
    + intros rows' [= <-] Hon Hex. specialize (Hlong Hon Hex). discriminate.
    + intros e' [= <-]. apply Honly. reflexivity.
    + intros rows' [= <-] Hon Hex. rewrite (Honly e eq_refl). eauto.
  - destruct (ReplyMarkup.keyboard m);
      [|destruct (ReplyMarkup.remove_keyboard m);
        [|destruct (ReplyMarkup.force_reply m)]];
      (split_and!; [apply same_but_world_refl|discriminate|discriminate]).
Qed.

(** The block that loads the message replied to never throws; it keeps the
    reply when there is none to load or the message is found, and drops it
    when the load is rejected. *)
Lemma reply_target_eq (chat_id rid : Z) ss :
  reply_target chat_id rid ss
  = if rid =? 0 then (Return rid, ss)
    else
      let c := Send.getMessage chat_id rid in
      (Return (match (messenger c (world (core ss))).1 with
               | Resolved _ => rid
               | Rejected _ => 0
               end),
       {| core := set_world (calls (core ss))
                    (messenger c (world (core ss))).2 (core ss);
          sent := sent ss ++ [c] |}).
Proof.
  unfold reply_target. destruct (rid =? 0); [reflexivity|].
  unfold try_catch_MS, _loadMessage, run_send, mbind, MS_bind. cbv zeta.
  destruct (messenger (Send.getMessage chat_id rid) (world (core ss)))
    as [[msg|e] w]; reflexivity.
Qed.

Lemma reply_target_effect (chat_id rid : Z) ss :
  exists rid' ss',
    reply_target chat_id rid ss = (Return rid', ss')
    /\ same_waits (core ss) (core ss')
    /\ _inited_chat (core ss') = _inited_chat (core ss)
    /\ exists pre, sent ss' = sent ss ++ pre.
Proof.
  rewrite reply_target_eq. destruct (rid =? 0).
  - eexists _, _. split; [reflexivity|].
    split_and!; [apply same_waits_refl|reflexivity|].
    exists []. symmetry. apply app_nil_r.
  - eexists _, _. split; [reflexivity|].
    split_and!; [unfold same_waits; simpl; auto|reflexivity|eauto].
Qed.

(** The two ways [_sendMessage] can end: it throws, with the listeners and
    promises as they were; or the transport has echoed a message for the
    [opt] sent last, and the wait for that echo is registered. *)
Lemma sendMessage_cases (chat_id : chat_ref)
  (content : Send.inputMessageContent) (options : SendOptions.t) ss :
  (exists e ss1,
     _sendMessage chat_id content options ss = (Throw e, ss1)
     /\ same_waits (core ss) (core ss1))
  \/ (exists b pre opt old_msg w,
        same_waits (core ss) b
        /\ messenger (Send.sendMessage opt) (world b) = (Resolved old_msg, w)
        /\ Send.input_message_content opt = content
        /\ Send.from_background opt = true
        /\ (_checkChatId chat_id (core ss)).1 = Return (Send.chat_id opt)
        /\ _sendMessage chat_id content options ss
           = (Return (length (promises b)),
              {| core := (_waitMessageTillSent (Send.chat_id opt)
                            (Td.Message.id old_msg)
                            (set_world (calls b) w b)).2;
                 sent := sent ss ++ pre ++ [Send.sendMessage opt] |})).
Proof.
  destruct (_sendMessage chat_id content options ss) as [r ss1] eqn:Hres.
  unfold _sendMessage, mbind, MS_bind in Hres. unfold lift at 1 in Hres.
  destruct (checkChatId_waits chat_id (core ss)) as [W1 _].
  destruct (_checkChatId chat_id (core ss)) as [[c|e] b1];
    cbn [fst snd] in *.
  2:{ injection Hres as <- <-. left. eexists _, _.
      split; [reflexivity|exact W1]. }
  assert (Hmarkup : exists r b2,
            markup_of options {| core := b1; sent := sent ss |}
            = (r, {| core := b2; sent := sent ss |})
            /\ same_waits b1 b2).
  { unfold markup_of. destruct (SendOptions.reply_markup options) as [m|].
    - unfold lift. cbn [core sent].
      destruct (parseReplyMarkup_same m b1) as (Hsame & _).
      destruct (_parseReplyMarkup m b1) as [r' b2]. eexists _, _.
      split; [reflexivity|]. apply same_but_world_waits. exact Hsame.
    - eexists _, _. split; [reflexivity|apply same_waits_refl]. }
  destruct Hmarkup as (r2 & b2 & Hm & W2). rewrite Hm in Hres.
  destruct r2 as [km|e].
  2:{ injection Hres as <- <-. left. eexists _, _. split; [reflexivity|].
      eapply same_waits_trans; eassumption. }
  unfold lift at 1 in Hres. cbn [core sent] in Hres.
  pose proof (initChat_waits c b2) as W3.
  destruct (_initChatIfNeeded c b2) as [[[]|e] b3]; cbn [fst snd] in *.
  2:{ injection Hres as <- <-. left. eexists _, _. split; [reflexivity|].
      eapply same_waits_trans; [|exact W3].
      eapply same_waits_trans; eassumption. }
  destruct (reply_target_effect c
              (get_tdlib_message_id
                 (default 0 (SendOptions.reply_to_message_id options)))
              {| core := b3; sent := sent ss |})
    as (rid & [b4 sent4] & Hr & W4 & _ & pre & Hpre).
  rewrite Hr in Hres. cbn [core sent] in *.
  assert (W : same_waits (core ss) b4).
  { eapply same_waits_trans; [|exact W4].
    eapply same_waits_trans; [|exact W3].
    eapply same_waits_trans; eassumption. }
  unfold run_send at 1 in Hres. cbn [core sent] in Hres.
  set (opt := {| Send.chat_id := c; Send.reply_to_message_id := rid;
                 Send.disable_notification := _;
                 Send.from_background := true;
                 Send.input_message_content := content;
                 Send.reply_markup := km |}) in *.
  destruct (messenger (Send.sendMessage opt) (world b4))
    as [[old_msg|e] w] eqn:Hsend.
  - unfold lift in Hres. cbn [core sent] in Hres.
    rewrite wait_eq in Hres. injection Hres as <- <-.
    right. exists b4, pre, opt, old_msg, w.
    split_and!; [exact W|exact Hsend|reflexivity|reflexivity|reflexivity|].
    rewrite wait_eq. cbn [fst snd]. rewrite Hpre, <- app_assoc. reflexivity.
  - injection Hres as <- <-. left. eexists _, _.
    split; [reflexivity|]. exact W.
Qed.

End SendingLemmas.

Section SendingTheorems.
Context `{Messenger}.

Implicit Types (b : Bot) (ss : Session).

(** X21. When [_sendMessage] returns a promise on a consistent registry, the
    last operation it has sent is the [sendMessage] of the content to the
    resolved chat, the promise is pending, and the update that names that
    chat and the id of the message the transport echoed settles the promise
    as the update says, by exactly one call of [rs] or [rj], and removes the
    event. *)
Theorem sendMessage_wait_settled_by_its_echo (chat_id : chat_ref)
  (content : Send.inputMessageContent) (options : SendOptions.t) ss
  (p : nat) ss1 :
  waits_ok (core ss) ->
  _sendMessage chat_id content options ss = (Return p, ss1) ->
  exists opt old_msg,
    last (sent ss1) = Some (Send.sendMessage opt)
    /\ Send.input_message_content opt = content
    /\ (_checkChatId chat_id (core ss)).1 = Return (Send.chat_id opt)
    /\ (exists b w, messenger (Send.sendMessage opt) (world b)
                    = (Resolved old_msg, w))
    /\ promises (core ss1) !! p = Some Pending
    /\ forall u o,
         update_event u
         = Some (sendMsg_event (Send.chat_id opt) (Td.Message.id old_msg)) ->
         update_settlement u = Some o ->
         let b2 := (publish u (core ss1)).2 in
         promises b2 !! p = Some (Settled o)
         /\ settled_times p b2 = 1%nat
         /\ _events b2
              !! sendMsg_event (Send.chat_id opt) (Td.Message.id old_msg)
            = None.
Proof.
  intros Hok Hres.
  destruct (sendMessage_cases chat_id content options ss)
    as [(e & ss' & Habs & _)|(b & pre & opt & old_msg & w & W & Hsend
                              & Hcontent & _ & Hchat & Heq)];
    [congruence|].
  rewrite Heq in Hres.
  set (name := sendMsg_event (Send.chat_id opt) (Td.Message.id old_msg)).
  set (b0 := set_world (calls b) w b) in *.
  assert (Hp : p = length (promises b)) by congruence.
  assert (Hcore : core ss1
                  = (_waitMessageTillSent (Send.chat_id opt)
                       (Td.Message.id old_msg) b0).2).
  { apply (f_equal snd) in Hres. cbn [snd] in Hres. rewrite <- Hres.
    reflexivity. }
  assert (Hsent : sent ss1 = sent ss ++ pre ++ [Send.sendMessage opt]).
  { apply (f_equal snd) in Hres. cbn [snd] in Hres. rewrite <- Hres.
    reflexivity. }
  clear Hres Heq. subst p.
  exists opt, old_msg. rewrite Hcore, Hsent.
  assert (Hok0 : waits_ok b0).
  { apply (same_waits_ok (core ss)); [|exact Hok].
    destruct W as (E1 & E2 & E3). unfold same_waits. simpl. auto. }
  pose proof (waits_ok_register (Send.chat_id opt) (Td.Message.id old_msg)
                b0 Hok0) as Hok1.
  set (b1 := (_waitMessageTillSent (Send.chat_id opt) (Td.Message.id old_msg)
                b0).2) in *.
  assert (Hpend : promises b1 !! length (promises b) = Some Pending).
  { subst b1. rewrite wait_eq. cbn [snd]. simpl.
    apply list_lookup_middle. reflexivity. }
  assert (Hlisted : exists ls, _events b1 !! name = Some ls
                               /\ length (promises b) ∈ ls).
  { subst b1. rewrite wait_eq. cbn [snd]. simpl. rewrite lookup_insert_eq.
    eexists. split; [reflexivity|]. apply elem_of_app. right.
    apply list_elem_of_singleton. reflexivity. }
  split_and!; [rewrite !app_assoc; apply last_snoc|exact Hcontent|exact Hchat
              |eauto|exact Hpend|].
  intros u o Hu Ho. cbv zeta.
  destruct Hlisted as (ls & Hls & Hin).
  destruct Hok1 as (_ & Hlists & _ & Hpending & _).
  destruct (Hlists _ _ Hls) as [Hnd Hp].
  destruct (publish_effect u name ls o b1 Hu Ho Hls Hnd Hp)
    as (Hev & Hsettle & _).
  destruct (Hsettle _ Hin) as [E1 E2].
  split_and!; [exact E1|rewrite E2, (Hpending _ Hpend); reflexivity|].
  rewrite Hev. apply lookup_delete_eq.
Qed.

(** X22. A [_sendMessage] that throws, at whichever step, has registered no
    wait: the listeners, the promises and the recorded settlements are as
    they were. *)
Theorem sendMessage_failure_registers_nothing (chat_id : chat_ref)
  (content : Send.inputMessageContent) (options : SendOptions.t) ss
  (e : exn) ss1 :
  _sendMessage chat_id content options ss = (Throw e, ss1) ->
  _events (core ss1) = _events (core ss)
  /\ promises (core ss1) = promises (core ss)
  /\ settlements (core ss1) = settlements (core ss).
Proof.
  intros Hres.
  destruct (sendMessage_cases chat_id content options ss)
    as [(e' & ss' & Heq & W)|(b & pre & opt & old_msg & w & _ & _ & _ & _ & _
                              & Habs)];
    [|congruence].
  rewrite Heq in Hres. injection Hres as <- <-. exact W.
Qed.

(** X23. A reply to a message: for a prepared chat and no markup,
    [_sendMessage] first asks for the message replied to, and then sends;
    when the message is found the send names it, and when the load is
    rejected the send goes out all the same, as a message that replies to
    nothing. *)
Theorem sendMessage_reply_target (c r : Z)
  (content : Send.inputMessageContent) (options : SendOptions.t) ss :
  c ∈ _inited_chat (core ss) ->
  SendOptions.reply_markup options = None ->
  SendOptions.reply_to_message_id options = Some r ->
  get_tdlib_message_id r <> 0 ->
  let load := Send.getMessage c (get_tdlib_message_id r) in
  let send reply_to :=
    Send.sendMessage
      {| Send.chat_id := c; Send.reply_to_message_id := reply_to;
         Send.disable_notification :=
           default false (SendOptions.disable_notification options);
         Send.from_background := true;
         Send.input_message_content := content;
         Send.reply_markup := None |} in
  sent (_sendMessage (ChatNumber c) content options ss).2
  = sent ss
      ++ [load;
          send (match (messenger load (world (core ss))).1 with
                | Resolved _ => get_tdlib_message_id r
                | Rejected _ => 0
                end)].
Proof.
  intros Hin Hno Hr Hrid load send.
  unfold _sendMessage. unfold mbind, MS_bind, markup_of. rewrite Hno, Hr.
  change (default 0 (Some r)) with r.
  unfold lift. simpl _checkChatId. cbn [mret M_ret MS_ret core sent].
  rewrite initChat_unfold, bool_decide_eq_true_2 by exact Hin.
  rewrite reply_target_eq. cbn [core sent].
  destruct (Z.eqb_spec (get_tdlib_message_id r) 0) as [|_]; [contradiction|].
  cbv zeta. fold load. unfold run_send. cbn [core sent world fst snd].
  destruct (messenger load (world (core ss))) as [[msg|e] w]; cbn [fst snd];
    match goal with
    | |- context [messenger (Send.sendMessage ?o) ?w0] =>
        destruct (messenger (Send.sendMessage o) w0) as [[old_msg|e'] w']
    end;
    cbn [fst snd core sent]; rewrite <- ?app_assoc; reflexivity.
Qed.

(** X24. With encryption on, a markup with a callback button whose payload
    is too long stops [_sendMessage] right after the chat is resolved: it
    throws, it has sent nothing, and it has not prepared the chat. *)
Theorem sendMessage_oversized_payload_sends_nothing (chat_id : chat_ref)
  (content : Send.inputMessageContent) (options : SendOptions.t)
  (m : ReplyMarkup.t) (rows : list (list InlineKeyboardButton.t)) ss (c : Z) :
  is_Some (_encrypt_callback_query (core ss)) ->
  SendOptions.reply_markup options = Some m ->
  ReplyMarkup.inline_keyboard m = Some rows ->
  Exists (Exists oversized) rows ->
  (_checkChatId chat_id (core ss)).1 = Return c ->
  exists ss1,
    _sendMessage chat_id content options ss
    = (Throw (JsError "Payload too long. 48 bytes max."), ss1)
    /\ sent ss1 = sent ss
    /\ _inited_chat (core ss1) = _inited_chat (core ss)
    /\ calls (core ss1) = calls (_checkChatId chat_id (core ss)).2.
Proof.
  intros Hon Hm Hrows Hex Hcheck.
  unfold _sendMessage. unfold mbind, MS_bind, markup_of. rewrite Hm.
  unfold lift.
  destruct (checkChatId_effect chat_id (core ss))
    as (Hinit & _ & _ & _ & _ & Hkey & _).
  destruct (_checkChatId chat_id (core ss)) as [[c'|e] b1];
    cbn [fst snd] in *; [|discriminate].
  cbn [core sent].
  destruct (parseReplyMarkup_same m b1) as (Hsame & _ & Hlong).
  destruct (Hlong rows Hrows) as (b2 & Hthrow); [rewrite Hkey; exact Hon|auto|].
  rewrite Hthrow in *. cbn [fst snd] in *.
  eexists. split; [reflexivity|]. cbn [core sent].
  destruct Hsame as (_ & _ & _ & _ & _ & E6 & _ & _ & _ & E10).
  split_and!; congruence.
Qed.

(** X25. [sendMessage] on a ready bot: a [parse_mode] that is neither
    [Markdown] nor [HTML], in this very spelling, is passed over and the text
    is sent as it is; with [Markdown] the text goes to the transport to be
    parsed before anything else, and a rejection of that ends the method
    there. *)
Theorem sendMessage_parse_mode (chat_id : chat_ref) (text : string)
  (options : SendOptions.t) ss :
  ready (core ss) = true ->
  (SendOptions.parse_mode options <> Some "Markdown" ->
   SendOptions.parse_mode options <> Some "HTML" ->
   sendMessage chat_id text options ss
   = _sendMessage chat_id
       (Send.inputMessageText (SendOptions.disable_web_page_preview options)
          {| Send.text := text; Send.entities := None |})
       options ss)
  /\ (SendOptions.parse_mode options = Some "Markdown" ->
      forall e w,
        messenger (Send.parseTextEntities text "textParseModeMarkdown")
          (world (core ss)) = (Rejected e, w) ->
        sendMessage chat_id text options ss
        = (Throw e,
           {| core := set_world (calls (core ss)) w (core ss);
              sent := sent ss
                        ++ [Send.parseTextEntities text
                              "textParseModeMarkdown"] |})).
Proof.
  intros Hready. unfold sendMessage. unfold mbind, MS_bind, lift, this.
  rewrite Hready. cbn [negb]. unfold _generateFormattedText. split.
  - intros Hmd Hhtml. destruct (SendOptions.parse_mode options) as [mode|];
      [|destruct ss; reflexivity].
    destruct (String.eqb_spec mode "Markdown") as [->|_]; [congruence|].
    destruct (String.eqb_spec mode "HTML") as [->|_]; [congruence|].
    destruct ss; reflexivity.
  - intros -> e w Hrej. cbn [String.eqb Ascii.eqb Bool.eqb].
    unfold run_send. simpl core. rewrite Hrej. destruct ss; reflexivity.
Qed.

End SendingTheorems.

(** ** Runs of the markup and of the send on the scripted platform *)

Lemma parseReplyMarkup_inline_keyboard_witness :
  let P := Script.platform Script.calm [] in
  let s := Script.fresh Script.calm [] Script.encrypting in
  let yes :=
    {| InlineKeyboardButton.text := "Yes";
       InlineKeyboardButton.url := None;
       InlineKeyboardButton.callback_data := Some "vote:yes";
       InlineKeyboardButton.switch_inline_query := None;
       InlineKeyboardButton.switch_inline_query_current_chat := None;
       InlineKeyboardButton.callback_game := false;
       InlineKeyboardButton.pay := false |} in
  let site :=
    {| InlineKeyboardButton.text := "Site";
       InlineKeyboardButton.url := Some "https://example.org";
       InlineKeyboardButton.callback_data := Some "ignored";
       InlineKeyboardButton.switch_inline_query := None;
       InlineKeyboardButton.switch_inline_query_current_chat := None;
       InlineKeyboardButton.callback_game := false;
       InlineKeyboardButton.pay := false |} in
  let m :=
    {| ReplyMarkup.inline_keyboard := Some [[yes; site]; [yes]];
       ReplyMarkup.keyboard := None;
       ReplyMarkup.resize_keyboard := None;
       ReplyMarkup.one_time_keyboard := None;
       ReplyMarkup.selective := None;
       ReplyMarkup.remove_keyboard := false;
       ReplyMarkup.force_reply := false |} in
  exists out,
    match (@_parseReplyMarkup P m s).1 with
    | Return k => k
    | Throw _ => None
    end = Some (TdMarkup.replyMarkupInlineKeyboard out)
    /\ Forall2 (Forall2 (button_parsed s)) [[yes; site]; [yes]] out.
Proof.
  intros P s yes site m.
  apply (@parseReplyMarkup_inline_keyboard P m [[yes; site]; [yes]] s).
  - reflexivity.
  - vm_compute. reflexivity.
Defined.

Lemma sendMessage_wait_settled_by_its_echo_witness :
  let P := Script.platform Script.calm [] in
  let T := Outbox.messenger Script.calm [] Outbox.delivered in
  let ss := Outbox.session Script.calm [] Script.plain in
  let content :=
    Send.inputMessageText None
      {| Send.text := "hello"; Send.entities := None |} in
  let ss1 := (@_sendMessage P T (ChatNumber 42) content Outbox.bare ss).2 in
  exists opt old_msg,
    last (sent ss1) = Some (Send.sendMessage opt)
    /\ Send.input_message_content opt = content
    /\ (@_checkChatId P (ChatNumber 42) (core ss)).1
       = Return (Send.chat_id opt)
    /\ (exists b w, @messenger P T (Send.sendMessage opt) (world b)
                    = (Resolved old_msg, w))
    /\ promises (core ss1) !! 0%nat = Some Pending
    /\ forall u o,
         update_event u
         = Some (sendMsg_event (Send.chat_id opt) (Td.Message.id old_msg)) ->
         update_settlement u = Some o ->
         let b2 := (@publish P u (core ss1)).2 in
         promises b2 !! 0%nat = Some (Settled o)
         /\ settled_times 0 b2 = 1%nat
         /\ _events b2
              !! sendMsg_event (Send.chat_id opt) (Td.Message.id old_msg)
            = None.
Proof.
  intros P T ss content ss1.
  apply (@sendMessage_wait_settled_by_its_echo P T (ChatNumber 42) content
           Outbox.bare ss 0%nat ss1).
  - apply (@same_waits_ok P (Script.fresh Script.calm [] Script.plain));
      [unfold same_waits; auto|apply waits_ok_constructor].
  - vm_compute. reflexivity.
Defined.

Lemma sendMessage_failure_registers_nothing_witness :
  let P := Script.platform Script.calm [] in
  let T := Outbox.messenger Script.calm [] Outbox.refused in
  let ss := Outbox.session Script.calm [] Script.plain in
  let content :=
    Send.inputMessageText None
      {| Send.text := "hello"; Send.entities := None |} in
  let ss1 := (@_sendMessage P T (ChatNumber 42) content Outbox.bare ss).2 in
  _events (core ss1) = _events (core ss)
  /\ promises (core ss1) = promises (core ss)
  /\ settlements (core ss1) = settlements (core ss).
Proof.
  intros P T ss content ss1.
  apply (@sendMessage_failure_registers_nothing P T (ChatNumber 42) content
           Outbox.bare ss Script.rejection ss1).
  vm_compute. reflexivity.
Defined.

Lemma sendMessage_reply_target_witness :
  let P := Script.platform Script.calm [] in
  let T := Outbox.messenger Script.calm [] Outbox.reply_gone in
  let ss :=
    {| core := (@_initChatIfNeeded P 42
                  (set_ready true
                     (Script.fresh Script.calm [] Script.plain))).2;
       sent := [] |} in
  let content :=
    Send.inputMessageText None
      {| Send.text := "hello"; Send.entities := None |} in
  let options :=
    {| SendOptions.disable_web_page_preview := None;
       SendOptions.parse_mode := None;
       SendOptions.reply_to_message_id := Some 3;
       SendOptions.disable_notification := Some true;
       SendOptions.reply_markup := None |} in
  sent (@_sendMessage P T (ChatNumber 42) content options ss).2
  = [Send.getMessage 42 3145728;
     Send.sendMessage
       {| Send.chat_id := 42; Send.reply_to_message_id := 0;
          Send.disable_notification := true; Send.from_background := true;
          Send.input_message_content := content;
          Send.reply_markup := None |}].
Proof.
  intros P T ss content options.
  apply (@sendMessage_reply_target P T 42 3 content options ss).
  - apply (bool_decide_unpack _). vm_compute. exact I.
  - reflexivity.
  - reflexivity.
  - vm_compute. discriminate.
Defined.

Lemma sendMessage_oversized_payload_sends_nothing_witness :
  let P := Script.platform Script.calm [] in
  let T := Outbox.messenger Script.calm [] Outbox.delivered in
  let ss := Outbox.session Script.calm [] Script.encrypting in
  let long :=
    {| InlineKeyboardButton.text := "Long";
       InlineKeyboardButton.url := None;
       InlineKeyboardButton.callback_data :=
         Some "0123456789012345678901234567890123456789012345678";
       InlineKeyboardButton.switch_inline_query := None;
       InlineKeyboardButton.switch_inline_query_current_chat := None;
       InlineKeyboardButton.callback_game := false;
       InlineKeyboardButton.pay := false |} in
  let m :=
    {| ReplyMarkup.inline_keyboard := Some [[long]];
       ReplyMarkup.keyboard := None;
       ReplyMarkup.resize_keyboard := None;
       ReplyMarkup.one_time_keyboard := None;
       ReplyMarkup.selective := None;
       ReplyMarkup.remove_keyboard := false;
       ReplyMarkup.force_reply := false |} in
  let options :=
    {| SendOptions.disable_web_page_preview := None;
       SendOptions.parse_mode := None;
       SendOptions.reply_to_message_id := None;
       SendOptions.disable_notification := None;
       SendOptions.reply_markup := Some m |} in
  let content :=
    Send.inputMessageText None
      {| Send.text := "hello"; Send.entities := None |} in
  exists ss1,
    @_sendMessage P T (ChatNumber 42) content options ss
    = (Throw (JsError "Payload too long. 48 bytes max."), ss1)
    /\ sent ss1 = sent ss
    /\ _inited_chat (core ss1) = _inited_chat (core ss)
    /\ calls (core ss1) = calls (@_checkChatId P (ChatNumber 42) (core ss)).2.
Proof.
  intros P T ss long m options content.
  apply (@sendMessage_oversized_payload_sends_nothing P T (ChatNumber 42)
           content options m [[long]] ss 42).
  - eexists. reflexivity.
  - reflexivity.
  - reflexivity.
  - apply Exists_cons_hd, Exists_cons_hd. split; [reflexivity|].
    eexists. split; [reflexivity|]. vm_compute. lia.
  - reflexivity.
Defined.

Lemma sendMessage_parse_mode_witness :
  let P := Script.platform Script.calm [] in
  let T := Outbox.messenger Script.calm [] Outbox.delivered in
  let ss := Outbox.session Script.calm [] Script.plain in
  let options :=
    {| SendOptions.disable_web_page_preview := None;
       SendOptions.parse_mode := Some "markdown";
       SendOptions.reply_to_message_id := None;
       SendOptions.disable_notification := None;
       SendOptions.reply_markup := None |} in
  @sendMessage P T (ChatNumber 42) "*hello*" options ss
  = @_sendMessage P T (ChatNumber 42)
      (Send.inputMessageText None
         {| Send.text := "*hello*"; Send.entities := None |})
      options ss.
Proof.
  intros P T ss options.
  refine (proj1 (@sendMessage_parse_mode P T (ChatNumber 42) "*hello*"
                   options ss eq_refl) _ _); discriminate.
Defined.
